(** * ROI average align (chainer/functions/pooling/roi_average_align_2d.py)

    A shallow embedding of the bilinear sampler, of the operator's
    constructor and of the sequential forward and backward kernels, with
    the properties of the written specification stated over it.

    Numbers.  Python integers are [Z].  A finite floating-point value is
    the rational number it denotes.  Two layers of arithmetic are used:

    - [Float] computes every operation exactly.  It carries the
      properties that do not depend on rounding: comparisons, truncation,
      indices, shapes, control flow, and what the two kernels do on
      inputs whose intermediate values are exact.

    - [Binary64] rounds the result of every operation to the nearest
      binary64 value, ties to even.  It carries the properties in which
      the rounding of the source's arithmetic decides: the sum of the
      interpolation weights and the size of the sampling grid.

    Infinities and NaN are not modelled.

    Control.  The kernels contain [while] loops; they are embedded with a
    fuel argument and a three-way outcome (a value, a raised exception,
    or fuel exhausted), so that a loop that never ends is visible as a
    run that exhausts every amount of fuel. *)

From Stdlib Require Import ZArith QArith Qround Qreduction Qabs Qpower Lqa.
From Stdlib Require Import List Lia Bool.
Import ListNotations.

Local Open Scope Z_scope.
Set Warnings "-register-all".

(** ** Floating-point values, computed exactly *)

Module Float.

Definition add (a b : Q) : Q := Qred (a + b).
Definition sub (a b : Q) : Q := Qred (a - b).
Definition mul (a b : Q) : Q := Qred (a * b).
Definition div (a b : Q) : Q := Qred (a / b).

(** [float(z)] and the implicit promotion of an int operand. *)
Definition of_int (z : Z) : Q := inject_Z z.

Definition le (a b : Q) : bool := Qle_bool a b.
Definition lt (a b : Q) : bool := negb (Qle_bool b a).

(** [int(q)]: truncation toward zero. *)
Definition trunc (q : Q) : Z :=
  if Qle_bool 0 q then Qfloor q else Qceiling q.

(** [numpy.ceil(q)], an integral value. *)
Definition ceil (q : Q) : Z := Qceiling q.

(** Python's [max(a, b)]: the first argument unless the second is
    strictly greater. *)
Definition max (a b : Q) : Q := if lt a b then b else a.

End Float.

(** ** Exceptions and outcomes *)

Inductive exn : Type :=
| TypeError
| ValueError
| IndexError
| ZeroDivisionError.

Inductive outcome (A : Type) : Type :=
| Ret (a : A)
| Exn (e : exn)
| OutOfFuel.

Arguments Ret {A} a.
Arguments Exn {A} e.
Arguments OutOfFuel {A}.

Definition bind {A B : Type} (m : outcome A) (k : A -> outcome B) : outcome B :=
  match m with
  | Ret a => k a
  | Exn e => Exn e
  | OutOfFuel => OutOfFuel
  end.

Notation "x <- m ;; k" := (bind m (fun x => k))
  (at level 61, m at next level, right associativity).

(** ** The bilinear sampler *)

Record bilinear_params : Type := mk_params {
  y_low : Z;
  x_low : Z;
  y_high : Z;
  x_high : Z;
  w1 : Q;
  w2 : Q;
  w3 : Q;
  w4 : Q
}.

(** [None] stands for the tuple of eight [None]s.  [height] and [width]
    are the plane's integer sizes; [y] and [x] are rebound as in the
    source. *)
Definition _get_bilinear_interp_params (y x : Q) (height width : Z)
  : option bilinear_params :=
  if Float.lt y (-1 # 1) || Float.lt (Float.of_int height) y
     || Float.lt x (-1 # 1) || Float.lt (Float.of_int width) x
  then None
  else
    let y := if Float.le y 0 then 0%Q else y in
    let x := if Float.le x 0 then 0%Q else x in
    let y_low := Float.trunc y in
    let x_low := Float.trunc x in
    let '(y_low, y_high, y) :=
      if height - 1 <=? y_low
      then (height - 1, height - 1, Float.of_int (height - 1))
      else (y_low, y_low + 1, y) in
    let '(x_low, x_high, x) :=
      if width - 1 <=? x_low
      then (width - 1, width - 1, Float.of_int (width - 1))
      else (x_low, x_low + 1, x) in
    let ly := Float.sub y (Float.of_int y_low) in
    let lx := Float.sub x (Float.of_int x_low) in
    let hy := Float.sub 1 ly in
    let hx := Float.sub 1 lx in
    let w1 := Float.mul hy hx in
    let w2 := Float.mul hy lx in
    let w3 := Float.mul ly hx in
    let w4 := Float.mul ly lx in
    Some (mk_params y_low x_low y_high x_high w1 w2 w3 w4).

(** One axis of the sampler after the range test, as a function of its
    own: the clamp to zero, the truncation and the snap to the last row,
    giving [(low, high, coordinate)]. *)
Definition resolve_axis (y : Q) (height : Z) : Z * Z * Q :=
  let y := if Float.le y 0 then 0%Q else y in
  let y_low := Float.trunc y in
  if height - 1 <=? y_low
  then (height - 1, height - 1, Float.of_int (height - 1))
  else (y_low, y_low + 1, y).

(** The weights computed from the two resolved axes. *)
Definition params_of_axes (ay ax : Z * Z * Q) : bilinear_params :=
  let '(y_low, y_high, y) := ay in
  let '(x_low, x_high, x) := ax in
  let ly := Float.sub y (Float.of_int y_low) in
  let lx := Float.sub x (Float.of_int x_low) in
  let hy := Float.sub 1 ly in
  let hx := Float.sub 1 lx in
  mk_params y_low x_low y_high x_high
    (Float.mul hy hx) (Float.mul hy lx) (Float.mul ly hx) (Float.mul ly lx).

(** ** Python values reaching the constructor *)

Inductive pyval : Type :=
| PyNone
| PyInt (z : Z)
| PyFloat (q : Q)
| PyTuple (l : list pyval).

(** [_pair(x)]: an iterable is returned as it is, anything else is
    doubled. *)
Definition _pair (x : pyval) : list pyval :=
  match x with
  | PyTuple l => l
  | _ => [x; x]
  end.

(** ** The operator *)

Record ROIAverageAlign2D : Type := mk_op {
  outh : Z;
  outw : Z;
  spatial_scale : Q;
  sampling_ratio : list (option Z)
}.

(** [isinstance(v, int) and v > 0] *)
Definition is_positive_int (v : pyval) : bool :=
  match v with
  | PyInt z => 0 <? z
  | _ => false
  end.

(** [(isinstance(s, int) and s >= 1) or s is None] *)
Definition is_ratio (s : pyval) : bool :=
  match s with
  | PyInt z => 1 <=? z
  | PyNone => true
  | _ => false
  end.

Definition ratio_of (s : pyval) : option Z :=
  match s with
  | PyInt z => Some z
  | _ => None
  end.

Definition int_of (v : pyval) : Z :=
  match v with
  | PyInt z => z
  | _ => 0
  end.

(** [ROIAverageAlign2D.__init__] *)
Definition __init__ (outsize spatial_scale sampling_ratio : pyval)
  : outcome ROIAverageAlign2D :=
  match _pair outsize with
  | [outh; outw] =>
    if negb (is_positive_int outh) then Exn TypeError
    else if negb (is_positive_int outw) then Exn TypeError
    else
      scale <-
        match spatial_scale with
        | PyInt z => Ret (Float.of_int z)
        | PyFloat q => if Float.lt 0 q then Ret q else Exn TypeError
        | _ => Exn TypeError
        end ;;
      let sampling_ratio := _pair sampling_ratio in
      if negb (forallb is_ratio sampling_ratio) then Exn TypeError
      else Ret (mk_op (int_of outh) (int_of outw) scale
                  (map ratio_of sampling_ratio))
  | _ => Exn ValueError
  end.

(** ** Arrays *)

(** A four-dimensional numpy array: its shape and its elements in row-major
    order. *)
Record ndarray4 : Type := mk_array {
  dim0 : Z;
  dim1 : Z;
  dim2 : Z;
  dim3 : Z;
  flat : list Q
}.

Definition size4 (a : ndarray4) : Z := dim0 a * dim1 a * dim2 a * dim3 a.

(** The elements fill the shape. *)
Definition well_shaped (a : ndarray4) : Prop :=
  0 <= dim0 a /\ 0 <= dim1 a /\ 0 <= dim2 a /\ 0 <= dim3 a /\
  Z.of_nat (length (flat a)) = size4 a.

(** [numpy.zeros(shape)] *)
Definition zeros (d0 d1 d2 d3 : Z) : ndarray4 :=
  mk_array d0 d1 d2 d3 (repeat 0%Q (Z.to_nat (d0 * d1 * d2 * d3))).

(** An index along an axis of length [n]: negative indices count from the
    end, anything outside [-n, n) raises. *)
Definition norm_index (i n : Z) : outcome Z :=
  if (0 <=? i) && (i <? n) then Ret i
  else if (- n <=? i) && (i <? 0) then Ret (i + n)
  else Exn IndexError.

Definition offset4 (a : ndarray4) (i0 i1 i2 i3 : Z) : outcome Z :=
  j0 <- norm_index i0 (dim0 a) ;;
  j1 <- norm_index i1 (dim1 a) ;;
  j2 <- norm_index i2 (dim2 a) ;;
  j3 <- norm_index i3 (dim3 a) ;;
  Ret (((j0 * dim1 a + j1) * dim2 a + j2) * dim3 a + j3).

(** [a[i0, i1, i2, i3]] *)
Definition getitem4 (a : ndarray4) (i0 i1 i2 i3 : Z) : outcome Q :=
  o <- offset4 a i0 i1 i2 i3 ;;
  match nth_error (flat a) (Z.to_nat o) with
  | Some v => Ret v
  | None => Exn IndexError
  end.

Fixpoint update_nth (l : list Q) (k : nat) (f : Q -> Q) : list Q :=
  match l, k with
  | [], _ => []
  | v :: l, O => f v :: l
  | v :: l, S k => v :: update_nth l k f
  end.

Definition with_flat (a : ndarray4) (l : list Q) : ndarray4 :=
  mk_array (dim0 a) (dim1 a) (dim2 a) (dim3 a) l.

(** [a[i0, i1, i2, i3] = v] *)
Definition setitem4 (a : ndarray4) (i0 i1 i2 i3 : Z) (v : Q)
  : outcome ndarray4 :=
  o <- offset4 a i0 i1 i2 i3 ;;
  if (Z.to_nat o <? length (flat a))%nat then
    Ret (with_flat a (update_nth (flat a) (Z.to_nat o) (fun _ => v)))
  else Exn IndexError.

(** [a[i0, i1, i2, i3] += g] *)
Definition iadd4 (a : ndarray4) (i0 i1 i2 i3 : Z) (g : Q)
  : outcome ndarray4 :=
  o <- offset4 a i0 i1 i2 i3 ;;
  if (Z.to_nat o <? length (flat a))%nat then
    Ret (with_flat a (update_nth (flat a) (Z.to_nat o) (fun v => Float.add v g)))
  else Exn IndexError.

(** A row [(y_min, x_min, y_max, x_max)] of the ROI array. *)
Record roi : Type := mk_roi {
  y_min : Q;
  x_min : Q;
  y_max : Q;
  x_max : Q
}.

(** [l[n]] on a one-dimensional array or on the rows of a two-dimensional
    one. *)
Definition getitem1 {A : Type} (l : list A) (n : Z) : outcome A :=
  j <- norm_index n (Z.of_nat (length l)) ;;
  match nth_error l (Z.to_nat j) with
  | Some v => Ret v
  | None => Exn IndexError
  end.

(** [range(n)] *)
Definition range (n : Z) : list Z := map Z.of_nat (seq 0 (Z.to_nat n)).

(** ** Geometry of one output element *)

(** The position [(n, c, ph, pw)] of the flat index [i]; the divisions are
    Python 3 true divisions followed by [int]. *)
Definition unravel (i pooled_width pooled_height channels : Z)
  : Z * Z * Z * Z :=
  let pw := i mod pooled_width in
  let ph :=
    Float.trunc (Float.div (Float.of_int i) (Float.of_int pooled_width))
    mod pooled_height in
  let c :=
    Float.trunc
      (Float.div (Float.div (Float.of_int i) (Float.of_int pooled_width))
         (Float.of_int pooled_height))
    mod channels in
  let n :=
    Float.trunc
      (Float.div
         (Float.div (Float.div (Float.of_int i) (Float.of_int pooled_width))
            (Float.of_int pooled_height))
         (Float.of_int channels)) in
  (n, c, ph, pw).

(** What both kernels derive from ROI [n] before sampling. *)
Record geometry : Type := mk_geometry {
  roi_batch_ind : Z;
  roi_start_h : Q;
  roi_start_w : Q;
  roi_height : Q;
  roi_width : Q;
  bin_size_h : Q;
  bin_size_w : Q;
  roi_bin_grid_h : Z;
  roi_bin_grid_w : Z;
  count : Z
}.

Definition roi_geometry (self : ROIAverageAlign2D) (bottom_rois : list roi)
  (bottom_roi_indices : list Z) (n : Z) : outcome geometry :=
  let pooled_height := outh self in
  let pooled_width := outw self in
  roi_batch_ind <- getitem1 bottom_roi_indices n ;;
  r <- getitem1 bottom_rois n ;;
  let roi_start_h := Float.mul (y_min r) (spatial_scale self) in
  let roi_start_w := Float.mul (x_min r) (spatial_scale self) in
  let roi_end_h := Float.mul (y_max r) (spatial_scale self) in
  let roi_end_w := Float.mul (x_max r) (spatial_scale self) in
  let roi_height := Float.max (Float.sub roi_end_h roi_start_h) 1 in
  let roi_width := Float.max (Float.sub roi_end_w roi_start_w) 1 in
  let bin_size_h := Float.div roi_height (Float.of_int pooled_height) in
  let bin_size_w := Float.div roi_width (Float.of_int pooled_width) in
  ratio_h <- getitem1 (sampling_ratio self) 0 ;;
  let roi_bin_grid_h :=
    match ratio_h with
    | None => Float.ceil (Float.div roi_height (Float.of_int pooled_height))
    | Some k => k
    end in
  ratio_w <- getitem1 (sampling_ratio self) 1 ;;
  let roi_bin_grid_w :=
    match ratio_w with
    | None => Float.ceil (Float.div roi_width (Float.of_int pooled_width))
    | Some k => k
    end in
  Ret (mk_geometry roi_batch_ind roi_start_h roi_start_w roi_height roi_width
         bin_size_h bin_size_w roi_bin_grid_h roi_bin_grid_w
         (roi_bin_grid_h * roi_bin_grid_w)).

(** [start + p * bin_size + (i + .5) * bin_size / grid] *)
Definition sample_coord (start bin_size : Q) (p i grid : Z) : Q :=
  Float.add
    (Float.add start (Float.mul (Float.of_int p) bin_size))
    (Float.div (Float.mul (Float.add (Float.of_int i) (1 # 2)) bin_size)
       (Float.of_int grid)).

(** ** The forward kernel, [forward_cpu] *)

Section ForwardBin.

Variable bottom_data : ndarray4.
Variables height width : Z.
Variable g : geometry.
Variables c ph pw : Z.

(** The inner [while ix < roi_bin_grid_w] loop.  As in the source, the
    [continue] taken on an unresolved sample jumps back to the loop test
    and skips [ix += 1]. *)
Fixpoint forward_while_ix (fuel : nat) (y : Q) (ix : Z) (output_val : Q)
  : outcome Q :=
  match fuel with
  | O => OutOfFuel
  | S fuel =>
    if ix <? roi_bin_grid_w g then
      let x := sample_coord (roi_start_w g) (bin_size_w g) pw ix
                 (roi_bin_grid_w g) in
      match _get_bilinear_interp_params y x height width with
      | None => forward_while_ix fuel y ix output_val
      | Some p =>
        v1 <- getitem4 bottom_data (roi_batch_ind g) c (y_low p) (x_low p) ;;
        v2 <- getitem4 bottom_data (roi_batch_ind g) c (y_low p) (x_high p) ;;
        v3 <- getitem4 bottom_data (roi_batch_ind g) c (y_high p) (x_low p) ;;
        v4 <- getitem4 bottom_data (roi_batch_ind g) c (y_high p) (x_high p) ;;
        let output_val :=
          Float.add output_val
            (Float.add
               (Float.add
                  (Float.add (Float.mul (w1 p) v1) (Float.mul (w2 p) v2))
                  (Float.mul (w3 p) v3))
               (Float.mul (w4 p) v4)) in
        forward_while_ix fuel y (ix + 1) output_val
      end
    else Ret output_val
  end.

(** The outer [while iy < roi_bin_grid_h] loop. *)
Fixpoint forward_while_iy (fuel : nat) (iy : Z) (output_val : Q)
  : outcome Q :=
  match fuel with
  | O => OutOfFuel
  | S fuel =>
    if iy <? roi_bin_grid_h g then
      let y := sample_coord (roi_start_h g) (bin_size_h g) ph iy
                 (roi_bin_grid_h g) in
      output_val <- forward_while_ix fuel y 0 output_val ;;
      forward_while_iy fuel (iy + 1) output_val
    else Ret output_val
  end.

End ForwardBin.

(** The body of [for i in range(top_data.size)]: the value stored at
    [top_data[n, c, ph, pw]]. *)
Definition forward_bin (fuel : nat) (self : ROIAverageAlign2D)
  (bottom_data : ndarray4) (bottom_rois : list roi)
  (bottom_roi_indices : list Z) (i : Z) : outcome Q :=
  let channels := dim1 bottom_data in
  let height := dim2 bottom_data in
  let width := dim3 bottom_data in
  let '(n, c, ph, pw) := unravel i (outw self) (outh self) channels in
  g <- roi_geometry self bottom_rois bottom_roi_indices n ;;
  output_val <- forward_while_iy bottom_data height width g c ph pw fuel 0 0 ;;
  Ret (Float.div output_val (Float.of_int (count g))).

Fixpoint forward_for (fuel : nat) (self : ROIAverageAlign2D)
  (bottom_data : ndarray4) (bottom_rois : list roi)
  (bottom_roi_indices : list Z) (idxs : list Z) (top_data : ndarray4)
  : outcome ndarray4 :=
  match idxs with
  | [] => Ret top_data
  | i :: idxs =>
    let '(n, c, ph, pw) :=
      unravel i (outw self) (outh self) (dim1 bottom_data) in
    output_val <-
      forward_bin fuel self bottom_data bottom_rois bottom_roi_indices i ;;
    top_data <- setitem4 top_data n c ph pw output_val ;;
    forward_for fuel self bottom_data bottom_rois bottom_roi_indices idxs
      top_data
  end.

(** [forward_cpu(self, (bottom_data, bottom_rois, bottom_roi_indices))].
    The array of [numpy.empty] is taken zero-filled; every element of it
    is overwritten before the return. *)
Definition forward_cpu (fuel : nat) (self : ROIAverageAlign2D)
  (bottom_data : ndarray4) (bottom_rois : list roi)
  (bottom_roi_indices : list Z) : outcome ndarray4 :=
  let channels := dim1 bottom_data in
  let n_rois := Z.of_nat (length bottom_rois) in
  let top_data := zeros n_rois channels (outh self) (outw self) in
  forward_for fuel self bottom_data bottom_rois bottom_roi_indices
    (range (size4 top_data)) top_data.

(** ** The backward kernel, [backward_cpu] *)

(** [x_low >= 0 and x_high >= 0 and y_low >= 0 and y_high >= 0] *)
Definition corners_nonnegative (p : bilinear_params) : bool :=
  (0 <=? x_low p) && (0 <=? x_high p) && (0 <=? y_low p) && (0 <=? y_high p).

Section BackwardBin.

Variables height width : Z.
Variable g : geometry.
Variables c ph pw : Z.
Variable top_diff_this_bin : Q.

(** The four accumulations of one resolved sample. *)
Definition scatter (bottom_diff : ndarray4) (p : bilinear_params)
  : outcome ndarray4 :=
  let cnt := Float.of_int (count g) in
  let g1 := Float.div (Float.mul top_diff_this_bin (w1 p)) cnt in
  let g2 := Float.div (Float.mul top_diff_this_bin (w2 p)) cnt in
  let g3 := Float.div (Float.mul top_diff_this_bin (w3 p)) cnt in
  let g4 := Float.div (Float.mul top_diff_this_bin (w4 p)) cnt in
  if corners_nonnegative p then
    d <- iadd4 bottom_diff (roi_batch_ind g) c (y_low p) (x_low p) g1 ;;
    d <- iadd4 d (roi_batch_ind g) c (y_low p) (x_high p) g2 ;;
    d <- iadd4 d (roi_batch_ind g) c (y_high p) (x_low p) g3 ;;
    iadd4 d (roi_batch_ind g) c (y_high p) (x_high p) g4
  else Ret bottom_diff.

Fixpoint backward_while_ix (fuel : nat) (y : Q) (ix : Z)
  (bottom_diff : ndarray4) : outcome ndarray4 :=
  match fuel with
  | O => OutOfFuel
  | S fuel =>
    if ix <? roi_bin_grid_w g then
      let x := sample_coord (roi_start_w g) (bin_size_w g) pw ix
                 (roi_bin_grid_w g) in
      match _get_bilinear_interp_params y x height width with
      | None => backward_while_ix fuel y ix bottom_diff
      | Some p =>
        bottom_diff <- scatter bottom_diff p ;;
        backward_while_ix fuel y (ix + 1) bottom_diff
      end
    else Ret bottom_diff
  end.

Fixpoint backward_while_iy (fuel : nat) (iy : Z) (bottom_diff : ndarray4)
  : outcome ndarray4 :=
  match fuel with
  | O => OutOfFuel
  | S fuel =>
    if iy <? roi_bin_grid_h g then
      let y := sample_coord (roi_start_h g) (bin_size_h g) ph iy
                 (roi_bin_grid_h g) in
      bottom_diff <- backward_while_ix fuel y 0 bottom_diff ;;
      backward_while_iy fuel (iy + 1) bottom_diff
    else Ret bottom_diff
  end.

End BackwardBin.

(** The body of [for i in range(top_diff.size)]. *)
Definition backward_bin (fuel : nat) (self : ROIAverageAlign2D)
  (bottom_rois : list roi) (bottom_roi_indices : list Z)
  (top_diff : ndarray4) (i : Z) (bottom_diff : ndarray4)
  : outcome ndarray4 :=
  let channels := dim1 bottom_diff in
  let height := dim2 bottom_diff in
  let width := dim3 bottom_diff in
  let '(n, c, ph, pw) := unravel i (outw self) (outh self) channels in
  g <- roi_geometry self bottom_rois bottom_roi_indices n ;;
  top_diff_this_bin <- getitem4 top_diff n c ph pw ;;
  backward_while_iy height width g c ph pw top_diff_this_bin fuel 0
    bottom_diff.

Fixpoint backward_for (fuel : nat) (self : ROIAverageAlign2D)
  (bottom_rois : list roi) (bottom_roi_indices : list Z)
  (top_diff : ndarray4) (idxs : list Z) (bottom_diff : ndarray4)
  : outcome ndarray4 :=
  match idxs with
  | [] => Ret bottom_diff
  | i :: idxs =>
    bottom_diff <-
      backward_bin fuel self bottom_rois bottom_roi_indices top_diff i
        bottom_diff ;;
    backward_for fuel self bottom_rois bottom_roi_indices top_diff idxs
      bottom_diff
  end.

(** [backward_cpu(self, inputs, gy)] with [self._bottom_data_shape], set by
    the forward call, passed as [(batch, channels, height, width)].  The
    result is the first component of the returned triple; the other two
    are [None]. *)
Definition backward_cpu (fuel : nat) (self : ROIAverageAlign2D)
  (bottom_data_shape : Z * Z * Z * Z) (bottom_rois : list roi)
  (bottom_roi_indices : list Z) (top_diff : ndarray4) : outcome ndarray4 :=
  let '(batch, channels, height, width) := bottom_data_shape in
  let bottom_diff := zeros batch channels height width in
  backward_for fuel self bottom_rois bottom_roi_indices top_diff
    (range (size4 top_diff)) bottom_diff.

(** ** Auxiliary notions used in the statements *)

(** The row-major position of element [(i0, i1, i2, i3)]. *)
Definition row_major (a : ndarray4) (i0 i1 i2 i3 : Z) : Z :=
  ((i0 * dim1 a + i1) * dim2 a + i2) * dim3 a + i3.




(** The sample point [(iy, ix)] of bin [(ph, pw)], resolved on a plane of
    size [height] by [width]. *)
Definition resolve_sample (height width : Z) (g : geometry)
  (ph pw iy ix : Z) : option bilinear_params :=
  _get_bilinear_interp_params
    (sample_coord (roi_start_h g) (bin_size_h g) ph iy (roi_bin_grid_h g))
    (sample_coord (roi_start_w g) (bin_size_w g) pw ix (roi_bin_grid_w g))
    height width.

(** No sample of the grid of bin [(ph, pw)] is resolved. *)
Definition bin_all_invalid (height width : Z) (g : geometry) (ph pw : Z)
  : Prop :=
  forall iy ix,
    0 <= iy < roi_bin_grid_h g -> 0 <= ix < roi_bin_grid_w g ->
    resolve_sample height width g ph pw iy ix = None.

(** What the constructor guarantees of an operator it returns. *)
Definition ratio_ok (s : option Z) : Prop :=
  match s with
  | Some k => 1 <= k
  | None => True
  end.

Definition valid_config (self : ROIAverageAlign2D) : Prop :=
  0 < outh self /\ 0 < outw self /\ Forall ratio_ok (sampling_ratio self).

(** Arrays of the same shape. *)
Definition same_shape (a a' : ndarray4) : Prop :=
  dim0 a' = dim0 a /\ dim1 a' = dim1 a /\ dim2 a' = dim2 a /\
  dim3 a' = dim3 a.

(** Batch plane [b] of [a] holds only zeros. *)
Definition plane_zero (a : ndarray4) (b : Z) : Prop :=
  forall c y x,
    0 <= c < dim1 a -> 0 <= y < dim2 a -> 0 <= x < dim3 a ->
    getitem4 a b c y x = Ret 0%Q.

(** [d] has the shape of [d0] and its batch plane [b] holds only zeros. *)
Definition untouched (d0 : ndarray4) (b : Z) (d : ndarray4) : Prop :=
  same_shape d0 d /\ plane_zero d b.

(** ** Binary64 arithmetic

    The finite values of IEEE 754 binary64 as the rationals they denote,
    with the rounding of each operation written out: round to nearest,
    ties to even, 53 significant bits, gradual underflow below
    [2^-1022].  The two zeros are identified.  Infinities and NaN have no
    representation: an operation whose rounded result has magnitude
    [2^1024] or more overflows in the source, and the statements below
    exclude it by [finite]. *)

Module Binary64.

(** [2^e] for any integer [e]. *)
Definition pow2 (e : Z) : Q := (2 ^ e)%Q.

(** [floor(log2 q)] for a positive [q]. *)
Definition ilog2 (q : Q) : Z :=
  let e := Z.log2 (Qnum q) - Z.log2 (Zpos (Qden q)) in
  if Qle_bool (pow2 e) q then e else e - 1.

(** The nearest integer, a tie going to the even one. *)
Definition rne (x : Q) : Z :=
  let f := Qfloor x in
  match (x - inject_Z f ?= 1 # 2)%Q with
  | Lt => f
  | Gt => f + 1
  | Eq => if Z.even f then f else f + 1
  end.

(** The exponent of the unit in the last place of [q]: 52 below that of
    its leading bit, and never below that of the subnormal numbers. *)
Definition ulp_exp (q : Q) : Z := Z.max (ilog2 (Qabs q) - 52) (- 1074).

(** The binary64 value nearest to [q], were the exponent unbounded
    above. *)
Definition round (q : Q) : Q :=
  if Qeq_bool q 0 then 0%Q
  else Qred (inject_Z (rne (q / pow2 (ulp_exp q))) * pow2 (ulp_exp q)).

(** The operation with exact result [q] does not overflow. *)
Definition finite (q : Q) : Prop := (Qabs (round q) < pow2 1024)%Q.

Definition add (a b : Q) : Q := round (a + b).
Definition sub (a b : Q) : Q := round (a - b).
Definition mul (a b : Q) : Q := round (a * b).
Definition div (a b : Q) : Q := round (a / b).

(** [float(z)] and the conversion of an int operand of a float
    operation. *)
Definition of_int (z : Z) : Q := round (inject_Z z).

(** [_get_bilinear_interp_params] with the rounding of its float
    operations.  The comparisons and [int(y)] are exact in the source
    (Python compares a float with an int by value), so they are those of
    [Float]. *)
Definition _get_bilinear_interp_params (y x : Q) (height width : Z)
  : option bilinear_params :=
  if Float.lt y (-1 # 1) || Float.lt (Float.of_int height) y
     || Float.lt x (-1 # 1) || Float.lt (Float.of_int width) x
  then None
  else
    let y := if Float.le y 0 then 0%Q else y in
    let x := if Float.le x 0 then 0%Q else x in
    let y_low := Float.trunc y in
    let x_low := Float.trunc x in
    let '(y_low, y_high, y) :=
      if height - 1 <=? y_low
      then (height - 1, height - 1, of_int (height - 1))
      else (y_low, y_low + 1, y) in
    let '(x_low, x_high, x) :=
      if width - 1 <=? x_low
      then (width - 1, width - 1, of_int (width - 1))
      else (x_low, x_low + 1, x) in
    let ly := sub y (of_int y_low) in
    let lx := sub x (of_int x_low) in
    let hy := sub 1 ly in
    let hx := sub 1 lx in
    let w1 := mul hy hx in
    let w2 := mul hy lx in
    let w3 := mul ly hx in
    let w4 := mul ly lx in
    Some (mk_params y_low x_low y_high x_high w1 w2 w3 w4).

(** What [forward_cpu] and [backward_cpu] derive from ROI [n] before
    sampling.  The grid sizes are Python ints or integral floats, kept as
    integers; [count] is their product, a float as soon as one of them
    is. *)
Record geometry : Type := mk_geometry {
  roi_batch_ind : Z;
  roi_start_h : Q;
  roi_start_w : Q;
  roi_height : Q;
  roi_width : Q;
  bin_size_h : Q;
  bin_size_w : Q;
  roi_bin_grid_h : Z;
  roi_bin_grid_w : Z;
  count : Q
}.

(** The lines from [roi_batch_ind] to [count].  An element of the ROI
    array times the Python float [spatial_scale] is a binary64 product:
    NumPy 1 promotes the pair of scalars to [float64]. *)
Definition roi_geometry (self : ROIAverageAlign2D) (bottom_rois : list roi)
  (bottom_roi_indices : list Z) (n : Z) : outcome geometry :=
  let pooled_height := outh self in
  let pooled_width := outw self in
  roi_batch_ind <- getitem1 bottom_roi_indices n ;;
  r <- getitem1 bottom_rois n ;;
  let roi_start_h := mul (y_min r) (spatial_scale self) in
  let roi_start_w := mul (x_min r) (spatial_scale self) in
  let roi_end_h := mul (y_max r) (spatial_scale self) in
  let roi_end_w := mul (x_max r) (spatial_scale self) in
  let roi_height := Float.max (sub roi_end_h roi_start_h) 1 in
  let roi_width := Float.max (sub roi_end_w roi_start_w) 1 in
  let bin_size_h := div roi_height (of_int pooled_height) in
  let bin_size_w := div roi_width (of_int pooled_width) in
  ratio_h <- getitem1 (sampling_ratio self) 0 ;;
  let roi_bin_grid_h :=
    match ratio_h with
    | None => Float.ceil (div roi_height (of_int pooled_height))
    | Some k => k
    end in
  ratio_w <- getitem1 (sampling_ratio self) 1 ;;
  let roi_bin_grid_w :=
    match ratio_w with
    | None => Float.ceil (div roi_width (of_int pooled_width))
    | Some k => k
    end in
  let count :=
    match ratio_h, ratio_w with
    | Some _, Some _ => inject_Z (roi_bin_grid_h * roi_bin_grid_w)
    | _, _ => mul (of_int roi_bin_grid_h) (of_int roi_bin_grid_w)
    end in
  Ret (mk_geometry roi_batch_ind roi_start_h roi_start_w roi_height roi_width
         bin_size_h bin_size_w roi_bin_grid_h roi_bin_grid_w count).

(** No product or difference of the scaling of ROI [r] overflows. *)
Definition scaling_finite (self : ROIAverageAlign2D) (r : roi) : Prop :=
  let s := spatial_scale self in
  finite (y_min r * s) /\ finite (x_min r * s) /\
  finite (y_max r * s) /\ finite (x_max r * s) /\
  finite (mul (y_max r) s - mul (y_min r) s) /\
  finite (mul (x_max r) s - mul (x_min r) s).

End Binary64.

(** * Properties *)

Local Open Scope Q_scope.

Arguments unravel : simpl never.
Arguments roi_geometry : simpl never.
Arguments sample_coord : simpl never.
Arguments _get_bilinear_interp_params : simpl never.

(** ** Exact floats *)


Lemma sub_spec (a b : Q) : Float.sub a b == a - b.
Proof. apply Qred_correct. Qed.

Lemma mul_spec (a b : Q) : Float.mul a b == a * b.
Proof. apply Qred_correct. Qed.


Lemma lt_spec (a b : Q) : Float.lt a b = true <-> a < b.
Proof.
  unfold Float.lt. rewrite negb_true_iff.
  split; intro H.
  - apply Qnot_le_lt. intro Hle. apply Qle_bool_iff in Hle. congruence.
  - destruct (Qle_bool b a) eqn:E; [|reflexivity].
    apply Qle_bool_iff in E. exfalso. eapply Qlt_not_le; eauto.
Qed.

Lemma lt_false (a b : Q) : Float.lt a b = false <-> b <= a.
Proof.
  unfold Float.lt. rewrite negb_false_iff. apply Qle_bool_iff.
Qed.

Lemma le_spec (a b : Q) : Float.le a b = true <-> a <= b.
Proof. apply Qle_bool_iff. Qed.

Lemma le_false (a b : Q) : Float.le a b = false <-> b < a.
Proof.
  unfold Float.le. split; intro H.
  - apply Qnot_le_lt. intro Hle. apply Qle_bool_iff in Hle. congruence.
  - destruct (Qle_bool a b) eqn:E; [|reflexivity].
    apply Qle_bool_iff in E. exfalso. eapply Qlt_not_le; eauto.
Qed.

Lemma trunc_nonneg (q : Q) : 0 <= q -> Float.trunc q = Qfloor q.
Proof.
  intro H. unfold Float.trunc.
  apply Qle_bool_iff in H. now rewrite H.
Qed.

Lemma floor_nonneg (q : Q) : 0 <= q -> (0 <= Qfloor q)%Z.
Proof.
  intro H. change 0%Z with (Qfloor 0). now apply Qfloor_resp_le.
Qed.

(** Every float operation returns a rational in lowest terms, so two
    results that are equal as numbers are the same value. *)
Lemma canonical_eq (a b : Q) : a == b -> Qred a = Qred b.
Proof. apply Qred_complete. Qed.


(** ** The bilinear sampler *)

(** The range test, read as a proposition. *)
Lemma sampler_invalid_iff (y x : Q) (height width : Z) :
  _get_bilinear_interp_params y x height width = None <->
  (y < -1 # 1 \/ inject_Z height < y \/ x < -1 # 1 \/ inject_Z width < x).
Proof.
  unfold _get_bilinear_interp_params.
  destruct (Float.lt y (-1 # 1) || Float.lt (Float.of_int height) y
            || Float.lt x (-1 # 1) || Float.lt (Float.of_int width) x) eqn:E.
  - split; [intros _|reflexivity].
    repeat (apply orb_true_iff in E; destruct E as [E|E]);
      apply lt_spec in E; unfold Float.of_int in E; tauto.
  - split.
    + repeat match goal with
             | |- context [if ?b then _ else _] => destruct b
             end; discriminate.
    + intro H. exfalso.
      repeat (apply orb_false_iff in E; destruct E as [E ?]).
      repeat match goal with
             | H : Float.lt _ _ = false |- _ => apply lt_false in H
             end.
      unfold Float.of_int in *.
      destruct H as [H|[H|[H|H]]];
        (eapply Qlt_not_le; [exact H|assumption]).
Qed.

Lemma axis_bounds (y : Q) (height : Z) :
  (1 <= height)%Z ->
  let '(lo, hi, _) := resolve_axis y height in
  (0 <= lo /\ lo <= hi /\ hi <= height - 1)%Z.
Proof.
  intros Hh. unfold resolve_axis.
  set (y0 := if Float.le y 0 then 0%Q else y).
  assert (H0 : 0 <= y0).
  { unfold y0. destruct (Float.le y 0) eqn:E.
    - apply Qle_refl.
    - apply le_false in E. now apply Qlt_le_weak. }
  rewrite (trunc_nonneg _ H0).
  pose proof (floor_nonneg _ H0) as Hf.
  destruct (height - 1 <=? Qfloor y0)%Z eqn:E.
  - lia.
  - apply Z.leb_gt in E. lia.
Qed.

(** A resolved sample is the pair of its two resolved axes. *)
Lemma sampler_valid_inv (y x : Q) (height width : Z) (p : bilinear_params) :
  _get_bilinear_interp_params y x height width = Some p ->
  p = params_of_axes (resolve_axis y height) (resolve_axis x width).
Proof.
  unfold _get_bilinear_interp_params, params_of_axes, resolve_axis.
  destruct (Float.lt y (-1 # 1) || Float.lt (Float.of_int height) y
            || Float.lt x (-1 # 1) || Float.lt (Float.of_int width) x);
    [discriminate|].
  cbv zeta.
  destruct (height - 1 <=? _)%Z; destruct (width - 1 <=? _)%Z;
    intro H; inversion H; reflexivity.
Qed.

(** ** Binary64 rounding *)

Lemma pow2_pos (e : Z) : 0 < Binary64.pow2 e.
Proof. apply Qpower_0_lt. reflexivity. Qed.

Lemma pow2_le (e e' : Z) :
  (e <= e')%Z -> Binary64.pow2 e <= Binary64.pow2 e'.
Proof. intro H. apply Qpower_le_compat_l; [exact H | discriminate]. Qed.

Lemma pow2_lt_inv (e e' : Z) :
  Binary64.pow2 e < Binary64.pow2 e' -> (e < e')%Z.
Proof.
  intro H. apply (Qpower_lt_compat_l_inv 2); [exact H | reflexivity].
Qed.

Lemma pow2_plus (a b : Z) :
  Binary64.pow2 (a + b) == Binary64.pow2 a * Binary64.pow2 b.
Proof. apply Qpower_plus. intro H; discriminate H. Qed.

Lemma pow2_opp (a : Z) : Binary64.pow2 (- a) == / Binary64.pow2 a.
Proof. apply Qpower_opp. Qed.

Lemma pow2_inject (k : Z) :
  (0 <= k)%Z -> Binary64.pow2 k == inject_Z (2 ^ k).
Proof. intro H. symmetry. apply (Zpower_Qpower 2 k H). Qed.

(** [ilog2] is the floor of the binary logarithm. *)
Lemma ilog2_spec (q : Q) :
  0 < q ->
  Binary64.pow2 (Binary64.ilog2 q) <= q /\
  q < Binary64.pow2 (Binary64.ilog2 q + 1).
Proof.
  intro Hq. destruct q as [n d].
  assert (Hn : (0 < n)%Z) by (unfold Qlt in Hq; simpl in Hq; lia).
  unfold Binary64.ilog2; cbn [Qnum Qden].
  destruct (Z.log2_spec n Hn) as [Ha1 Ha2].
  destruct (Z.log2_spec (Zpos d) eq_refl) as [Hb1 Hb2].
  pose proof (Z.log2_nonneg n) as Ha0.
  pose proof (Z.log2_nonneg (Zpos d)) as Hb0.
  set (a := Z.log2 n) in *. set (b := Z.log2 (Zpos d)) in *.
  assert (Hq' : (n # d) * inject_Z (Zpos d) == inject_Z n).
  { unfold Qeq, Qmult, inject_Z; simpl. rewrite Pos.mul_1_r. ring. }
  assert (A1 : Binary64.pow2 a <= inject_Z n).
  { rewrite pow2_inject by lia. rewrite <- Zle_Qle. exact Ha1. }
  assert (A2 : inject_Z n < Binary64.pow2 (a + 1)).
  { rewrite pow2_inject by lia. rewrite <- Zlt_Qlt. exact Ha2. }
  assert (B1 : Binary64.pow2 b <= inject_Z (Zpos d)).
  { rewrite pow2_inject by lia. rewrite <- Zle_Qle. exact Hb1. }
  assert (B2 : inject_Z (Zpos d) < Binary64.pow2 (b + 1)).
  { rewrite pow2_inject by lia. rewrite <- Zlt_Qlt. exact Hb2. }
  pose proof (pow2_pos b) as Pb. pose proof (pow2_pos (b + 1)) as Pb1.
  destruct (Qle_bool (Binary64.pow2 (a - b)) (n # d)) eqn:E.
  - split; [apply Qle_bool_iff; exact E|].
    assert (Hs : Binary64.pow2 (a - b + 1) * Binary64.pow2 b
                 == Binary64.pow2 (a + 1)).
    { rewrite <- pow2_plus. replace (a - b + 1 + b)%Z with (a + 1)%Z by lia.
      reflexivity. }
    apply (Qmult_lt_r _ _ (Binary64.pow2 b) Pb). rewrite Hs.
    apply Qle_lt_trans with (inject_Z n); [|exact A2].
    rewrite <- Hq'. apply Qmult_le_l; [exact Hq | exact B1].
  - split.
    + assert (Hs : Binary64.pow2 (a - b - 1) * Binary64.pow2 (b + 1)
                   == Binary64.pow2 a).
      { rewrite <- pow2_plus. replace (a - b - 1 + (b + 1))%Z with a by lia.
        reflexivity. }
      apply (Qmult_le_r _ _ (Binary64.pow2 (b + 1)) Pb1). rewrite Hs.
      apply Qle_trans with (inject_Z n); [exact A1|].
      rewrite <- Hq'. apply Qmult_le_l; [exact Hq|].
      apply Qlt_le_weak; exact B2.
    + replace (a - b - 1 + 1)%Z with (a - b)%Z by lia.
      apply Qnot_le_lt. intro H. apply Qle_bool_iff in H. congruence.
Qed.

Lemma ilog2_lt (q : Q) (m : Z) :
  0 < q -> q < Binary64.pow2 m -> (Binary64.ilog2 q < m)%Z.
Proof.
  intros Hq H. apply pow2_lt_inv.
  apply Qle_lt_trans with q; [apply ilog2_spec; exact Hq | exact H].
Qed.

Lemma ilog2_ge (q : Q) (m : Z) :
  0 < q -> Binary64.pow2 m <= q -> (m <= Binary64.ilog2 q)%Z.
Proof.
  intros Hq H.
  assert (m < Binary64.ilog2 q + 1)%Z; [|lia].
  apply pow2_lt_inv.
  apply Qle_lt_trans with q; [exact H | apply ilog2_spec; exact Hq].
Qed.

(** Rounding to the nearest integer moves a number by at most a half. *)
Lemma rne_error (x : Q) : Qabs (inject_Z (Binary64.rne x) - x) <= 1 # 2.
Proof.
  unfold Binary64.rne. pose proof (Qfloor_le x) as Hl.
  pose proof (Qlt_floor x) as Hu. rewrite inject_Z_plus in Hu.
  change (inject_Z 1) with 1 in Hu.
  apply Qabs_Qle_condition.
  destruct (x - inject_Z (Qfloor x) ?= 1 # 2) eqn:E.
  - apply Qeq_alt in E. destruct (Z.even (Qfloor x)).
    + lra.
    + rewrite inject_Z_plus. change (inject_Z 1) with 1. lra.
  - apply Qlt_alt in E. lra.
  - apply Qgt_alt in E. rewrite inject_Z_plus.
    change (inject_Z 1) with 1. lra.
Qed.

Lemma rne_ge_floor (x : Q) : (Qfloor x <= Binary64.rne x)%Z.
Proof.
  unfold Binary64.rne.
  destruct (x - inject_Z (Qfloor x) ?= 1 # 2);
    [destruct (Z.even (Qfloor x))| |]; lia.
Qed.

Lemma rne_inject (x : Q) (m : Z) : x == inject_Z m -> Binary64.rne x = m.
Proof.
  intro H.
  assert (Hf : Qfloor x = m) by (rewrite H; apply Qfloor_Z).
  assert (Hc : (x - inject_Z (Qfloor x) ?= 1 # 2) = Lt).
  { apply Qlt_alt. rewrite Hf. setoid_replace x with (inject_Z m) by exact H.
    setoid_replace (inject_Z m - inject_Z m) with 0 by ring. reflexivity. }
  unfold Binary64.rne. rewrite Hc. exact Hf.
Qed.

(** A rounded value is within half a unit in the last place. *)
Lemma round_error (q : Q) :
  Qabs (Binary64.round q - q)
  <= Binary64.pow2 (Binary64.ulp_exp q) * (1 # 2).
Proof.
  unfold Binary64.round.
  pose proof (pow2_pos (Binary64.ulp_exp q)) as Hu.
  set (u := Binary64.pow2 (Binary64.ulp_exp q)) in *.
  destruct (Qeq_bool q 0) eqn:E.
  - apply Qeq_bool_iff in E. apply Qabs_Qle_condition. lra.
  - rewrite Qred_correct.
    pose proof (rne_error (q / u)) as Hr.
    apply Qabs_Qle_condition in Hr. apply Qabs_Qle_condition.
    assert (Hq : q == q / u * u) by (field; lra).
    set (t := q / u) in *.
    set (r := inject_Z (Binary64.rne t)) in *. nra.
Qed.

Lemma round_zero (q : Q) : q == 0 -> Binary64.round q = 0.
Proof.
  intro H. unfold Binary64.round.
  apply Qeq_bool_iff in H. rewrite H. reflexivity.
Qed.

(** Below 2 the rounding error is at most [2^-53]. *)
Lemma round_error_small (q : Q) :
  Qabs q < 2 -> Qabs (Binary64.round q - q) <= Binary64.pow2 (-53).
Proof.
  intro Hq. destruct (Qeq_dec q 0) as [E | E].
  - rewrite (round_zero q E). apply Qabs_Qle_condition.
    pose proof (pow2_pos (-53)). lra.
  - eapply Qle_trans; [apply round_error|].
    assert (Hpos : 0 < Qabs q).
    { apply Qabs_case; intros; lra. }
    assert (He : (Binary64.ilog2 (Qabs q) < 1)%Z)
      by (apply ilog2_lt; [exact Hpos | exact Hq]).
    assert (Hu : Binary64.pow2 (Binary64.ulp_exp q) <= Binary64.pow2 (-52))
      by (apply pow2_le; unfold Binary64.ulp_exp; lia).
    assert (Hh : Binary64.pow2 (-52) * (1 # 2) == Binary64.pow2 (-53))
      by reflexivity.
    rewrite <- Hh. apply Qmult_le_compat_r; [exact Hu | discriminate].
Qed.

Lemma Qred_inject_Z (z : Z) : Qred (inject_Z z) = inject_Z z.
Proof.
  unfold Qred, inject_Z.
  pose proof (Z.ggcd_gcd z 1) as Hg.
  pose proof (Z.ggcd_correct_divisors z 1) as Hd.
  destruct (Z.ggcd z 1) as [g [aa bb]]. simpl in *.
  rewrite Z.gcd_1_r in Hg. subst g. destruct Hd as [Ha Hb].
  replace aa with z by lia. replace bb with 1%Z by lia. reflexivity.
Qed.

(** The integers below [2^53] are binary64 values. *)
Lemma of_int_exact (z : Z) :
  (0 <= z < 2 ^ 53)%Z -> Binary64.of_int z = inject_Z z.
Proof.
  intros [H0 H1]. unfold Binary64.of_int, Binary64.round.
  destruct (Z.eq_dec z 0) as [-> | Hz]; [reflexivity|].
  assert (Hpos : 0 < inject_Z z).
  { change 0 with (inject_Z 0). rewrite <- Zlt_Qlt. lia. }
  destruct (Qeq_bool (inject_Z z) 0) eqn:E.
  { apply Qeq_bool_iff in E. lra. }
  transitivity (Qred (inject_Z z)); [apply Qred_complete | apply Qred_inject_Z].
  assert (Habs : Qabs (inject_Z z) = inject_Z z).
  { unfold Qabs, inject_Z. rewrite Z.abs_eq by lia. reflexivity. }
  unfold Binary64.ulp_exp. rewrite Habs.
  destruct (ilog2_spec _ Hpos) as [L U].
  set (e := Binary64.ilog2 (inject_Z z)) in *.
  assert (He : (0 <= e <= 52)%Z).
  { split.
    - assert (0 < e + 1)%Z; [|lia]. apply pow2_lt_inv.
      apply Qle_lt_trans with (inject_Z z); [|exact U].
      change (Binary64.pow2 0) with (inject_Z 1). rewrite <- Zle_Qle. lia.
    - assert (e < 53)%Z; [|lia]. apply pow2_lt_inv.
      apply Qle_lt_trans with (inject_Z z); [exact L|].
      rewrite (pow2_inject 53) by lia. rewrite <- Zlt_Qlt. exact H1. }
  rewrite Z.max_l by lia.
  replace (e - 52)%Z with (- (52 - e))%Z by lia.
  set (k := (52 - e)%Z). assert (Hk : (0 <= k)%Z) by (unfold k; lia).
  pose proof (pow2_pos k) as Pk.
  assert (Hx : inject_Z z / Binary64.pow2 (- k) == inject_Z (z * 2 ^ k)).
  { rewrite inject_Z_mult, <- pow2_inject by exact Hk.
    rewrite pow2_opp. field. lra. }
  rewrite (rne_inject _ _ Hx).
  rewrite inject_Z_mult, <- pow2_inject by exact Hk.
  rewrite pow2_opp. field. lra.
Qed.

(** A quotient or product that does not underflow to zero. *)
Lemma round_pos (q : Q) : Binary64.pow2 (-1074) <= q -> 0 < Binary64.round q.
Proof.
  intro H. pose proof (pow2_pos (-1074)) as P.
  assert (Hq : 0 < q) by lra.
  unfold Binary64.round.
  destruct (Qeq_bool q 0) eqn:E.
  { apply Qeq_bool_iff in E. lra. }
  rewrite Qred_correct.
  assert (Habs : Qabs q == q) by (apply Qabs_pos; lra).
  assert (Hpos : 0 < Qabs q) by lra.
  destruct (ilog2_spec _ Hpos) as [L U].
  assert (He : (-1074 <= Binary64.ilog2 (Qabs q))%Z)
    by (apply ilog2_ge; [exact Hpos | lra]).
  unfold Binary64.ulp_exp.
  set (e := Binary64.ilog2 (Qabs q)) in *.
  set (ue := Z.max (e - 52) (-1074)).
  assert (Hue : Binary64.pow2 ue <= Binary64.pow2 e)
    by (apply pow2_le; unfold ue; lia).
  pose proof (pow2_pos ue) as Pu.
  assert (H1 : 1 <= q / Binary64.pow2 ue).
  { apply Qle_shift_div_l; [exact Pu | lra]. }
  apply Qfloor_resp_le in H1. change (Qfloor 1) with 1%Z in H1.
  pose proof (rne_ge_floor (q / Binary64.pow2 ue)) as Hr.
  assert (Hz : 1 <= inject_Z (Binary64.rne (q / Binary64.pow2 ue))).
  { change 1 with (inject_Z 1). rewrite <- Zle_Qle. lia. }
  set (r := inject_Z (Binary64.rne (q / Binary64.pow2 ue))) in *.
  set (u := Binary64.pow2 ue) in *. nra.
Qed.

(** ** The weights of the sampler in binary64 *)

Lemma round_near (q : Q) :
  -2 < q < 2 ->
  - Binary64.pow2 (-53) <= Binary64.round q - q <= Binary64.pow2 (-53).
Proof.
  intros [H1 H2]. apply Qabs_Qle_condition. apply round_error_small.
  apply Qabs_Qlt_condition. split; assumption.
Qed.

Lemma pow2_53_small : Binary64.pow2 (-53) <= 1 # 64.
Proof. vm_compute. discriminate. Qed.

(** The fractional offset on one axis: the rounded difference is within
    [2^-53] of a number of the unit interval. *)
Lemma binary64_offset (y : Q) (height : Z) :
  (height <= 2 ^ 53)%Z ->
  let y' := if Float.le y 0 then 0 else y in
  let y_low := Float.trunc y' in
  let r :=
    if (height - 1 <=? y_low)%Z
    then ((height - 1)%Z, (height - 1)%Z, Binary64.of_int (height - 1))
    else (y_low, (y_low + 1)%Z, y') in
  exists a,
    0 <= a <= 1 /\
    - Binary64.pow2 (-53)
    <= Binary64.sub (snd r) (Binary64.of_int (fst (fst r))) - a
    <= Binary64.pow2 (-53).
Proof.
  intros Hh y' y_low r. pose proof (pow2_pos (-53)) as He.
  assert (Hy' : 0 <= y').
  { unfold y'. destruct (Float.le y 0) eqn:E; [lra|].
    apply le_false in E. lra. }
  assert (Hlow : y_low = Qfloor y') by (apply trunc_nonneg; exact Hy').
  pose proof (floor_nonneg y' Hy') as Hf.
  unfold r. destruct (height - 1 <=? y_low)%Z eqn:E; cbn [fst snd].
  - exists 0. split; [lra|]. unfold Binary64.sub.
    rewrite round_zero by ring. lra.
  - apply Z.leb_gt in E.
    rewrite of_int_exact by lia.
    exists (y' - inject_Z y_low).
    pose proof (Qfloor_le y') as Hl. pose proof (Qlt_floor y') as Hu.
    rewrite inject_Z_plus in Hu. change (inject_Z 1) with 1 in Hu.
    rewrite <- Hlow in Hl, Hu.
    split; [lra|]. unfold Binary64.sub. apply round_near. lra.
Qed.

(** Four rounded products of rounded complements add up to one within
    eight rounding errors. *)
Lemma products_near_one (e a b ly lx hy hx v1 v2 v3 v4 : Q) :
  0 < e -> e <= 1 # 64 ->
  0 <= a <= 1 -> 0 <= b <= 1 ->
  - e <= ly - a <= e -> - e <= lx - b <= e ->
  - e <= hy - (1 - ly) <= e -> - e <= hx - (1 - lx) <= e ->
  - e <= v1 - hy * hx <= e -> - e <= v2 - hy * lx <= e ->
  - e <= v3 - ly * hx <= e -> - e <= v4 - ly * lx <= e ->
  - (8 * e) <= v1 + v2 + v3 + v4 - 1 <= 8 * e.
Proof.
  intros He0 He1 Ha Hb Hly Hlx Hhy Hhx H1 H2 H3 H4.
  assert (Hs : (1 - e) * (1 - e) <= (hy + ly) * (hx + lx)
               <= (1 + e) * (1 + e)) by (split; nra).
  assert (Hee : 0 <= e * e <= e) by (split; nra).
  split; nra.
Qed.

Lemma product_lower (e p q : Q) :
  0 < e -> e <= 1 # 64 ->
  - (2 * e) <= p <= 1 + 2 * e -> - (2 * e) <= q <= 1 + 2 * e ->
  - (5 * e) <= p * q.
Proof.
  intros He0 He1 Hp Hq.
  assert (H1 : 0 <= (p + 2 * e) * (q + 2 * e))
    by (apply Qmult_le_0_compat; lra).
  assert (H2 : 0 <= e * (1 + 2 * e - p)) by (apply Qmult_le_0_compat; lra).
  assert (H3 : 0 <= e * (1 + 2 * e - q)) by (apply Qmult_le_0_compat; lra).
  assert (H4 : 0 <= e * ((1 # 64) - e)) by (apply Qmult_le_0_compat; lra).
  nra.
Qed.

Lemma sums_near_one (e a b ly lx hy hx v1 v2 v3 v4 : Q) :
  0 < e -> e <= 1 # 64 ->
  0 <= a <= 1 -> 0 <= b <= 1 ->
  - e <= ly - a <= e -> - e <= lx - b <= e ->
  - e <= hy - (1 - ly) <= e -> - e <= hx - (1 - lx) <= e ->
  - e <= v1 - hy * hx <= e -> - e <= v2 - hy * lx <= e ->
  - e <= v3 - ly * hx <= e -> - e <= v4 - ly * lx <= e ->
  (-1 < v1 + v2 < 3 # 2) /\ (-1 < v1 + v2 + v3 < 3 # 2) /\
  (-1 < v1 + v2 + v3 + v4 < 3 # 2).
Proof.
  intros He0 He1 Ha Hb Hly Hlx Hhy Hhx H1 H2 H3 H4.
  assert (Hs : (1 - e) * (1 - e) <= (hy + ly) * (hx + lx)
               <= (1 + e) * (1 + e)) by (split; nra).
  assert (Hee : 0 <= e * e <= e) by (split; nra).
  pose proof (product_lower e hy hx He0 He1 ltac:(lra) ltac:(lra)) as B1.
  pose proof (product_lower e hy lx He0 He1 ltac:(lra) ltac:(lra)) as B2.
  pose proof (product_lower e ly hx He0 He1 ltac:(lra) ltac:(lra)) as B3.
  pose proof (product_lower e ly lx He0 He1 ltac:(lra) ltac:(lra)) as B4.
  assert (Hi : (hy + ly) * (hx + lx)
               == hy * hx + hy * lx + ly * hx + ly * lx) by ring.
  set (m1 := hy * hx) in *. set (m2 := hy * lx) in *.
  set (m3 := ly * hx) in *. set (m4 := ly * lx) in *.
  set (s := (hy + ly) * (hx + lx)) in *.
  assert (Hs' : s <= 1 + 3 * e) by nra.
  repeat split; lra.
Qed.

Lemma binary64_weights (a b ly lx : Q) :
  0 <= a <= 1 -> 0 <= b <= 1 ->
  - Binary64.pow2 (-53) <= ly - a <= Binary64.pow2 (-53) ->
  - Binary64.pow2 (-53) <= lx - b <= Binary64.pow2 (-53) ->
  let hy := Binary64.sub 1 ly in
  let hx := Binary64.sub 1 lx in
  let v1 := Binary64.mul hy hx in
  let v2 := Binary64.mul hy lx in
  let v3 := Binary64.mul ly hx in
  let v4 := Binary64.mul ly lx in
  Qabs (v1 + v2 + v3 + v4 - 1) <= Binary64.pow2 (-50) /\
  Qabs (Binary64.add (Binary64.add (Binary64.add v1 v2) v3) v4 - 1)
  <= Binary64.pow2 (-49).
Proof.
  intros Ha Hb Hly Hlx hy hx v1 v2 v3 v4.
  pose proof (pow2_pos (-53)) as He0. pose proof pow2_53_small as He1.
  assert (H8 : 8 * Binary64.pow2 (-53) == Binary64.pow2 (-50)) by reflexivity.
  assert (H16 : 16 * Binary64.pow2 (-53) == Binary64.pow2 (-49))
    by reflexivity.
  assert (Hhy : - Binary64.pow2 (-53) <= hy - (1 - ly) <= Binary64.pow2 (-53))
    by (apply round_near; lra).
  assert (Hhx : - Binary64.pow2 (-53) <= hx - (1 - lx) <= Binary64.pow2 (-53))
    by (apply round_near; lra).
  set (e := Binary64.pow2 (-53)) in *.
  assert (H1 : - e <= v1 - hy * hx <= e) by (apply round_near; split; nra).
  assert (H2 : - e <= v2 - hy * lx <= e) by (apply round_near; split; nra).
  assert (H3 : - e <= v3 - ly * hx <= e) by (apply round_near; split; nra).
  assert (H4 : - e <= v4 - ly * lx <= e) by (apply round_near; split; nra).
  pose proof (products_near_one e a b ly lx hy hx v1 v2 v3 v4
                He0 He1 Ha Hb Hly Hlx Hhy Hhx H1 H2 H3 H4) as Hsum.
  pose proof (sums_near_one e a b ly lx hy hx v1 v2 v3 v4
                He0 He1 Ha Hb Hly Hlx Hhy Hhx H1 H2 H3 H4)
    as [S2 [S3 S4]].
  split; apply Qabs_Qle_condition.
  - rewrite <- H8. exact Hsum.
  - rewrite <- H16.
    assert (T1 : - e <= Binary64.add v1 v2 - (v1 + v2) <= e)
      by (apply round_near; lra).
    set (t1 := Binary64.add v1 v2) in *.
    assert (T2 : - e <= Binary64.add t1 v3 - (t1 + v3) <= e)
      by (apply round_near; lra).
    set (t2 := Binary64.add t1 v3) in *.
    assert (T3 : - e <= Binary64.add t2 v4 - (t2 + v4) <= e)
      by (apply round_near; lra).
    lra.
Qed.

(** C5.  The weights of a resolved point, each the binary64 product of
    rounded offsets, add up to one up to rounding and not always to one
    exactly: their sum as numbers is within [2^-50] of one, and their
    binary64 sum [((w1 + w2) + w3) + w4] within [2^-49].  Planes have at
    most [2^53] rows and columns, so that every row and column number is
    a binary64 value. *)
Theorem bilinear_weights_sum_within_rounding :
  forall (y x : Q) (height width : Z) (p : bilinear_params),
    (height <= 2 ^ 53)%Z -> (width <= 2 ^ 53)%Z ->
    Binary64._get_bilinear_interp_params y x height width = Some p ->
    Qabs (w1 p + w2 p + w3 p + w4 p - 1) <= Binary64.pow2 (-50) /\
    Qabs (Binary64.add (Binary64.add (Binary64.add (w1 p) (w2 p)) (w3 p))
            (w4 p) - 1) <= Binary64.pow2 (-49).
Proof.
  intros y x height width p Hh Hw H.
  unfold Binary64._get_bilinear_interp_params in H.
  destruct (Float.lt y (-1 # 1) || Float.lt (Float.of_int height) y
            || Float.lt x (-1 # 1) || Float.lt (Float.of_int width) x);
    [discriminate|].
  pose proof (binary64_offset y height Hh) as Hy.
  pose proof (binary64_offset x width Hw) as Hx.
  cbv zeta in Hy, Hx, H.
  destruct (if (height - 1 <=? Float.trunc (if Float.le y 0 then 0 else y))%Z
            then _ else _) as [[yl yh] yy].
  destruct (if (width - 1 <=? Float.trunc (if Float.le x 0 then 0 else x))%Z
            then _ else _) as [[xl xh] xx].
  cbn [fst snd] in Hy, Hx.
  destruct Hy as [a [Ha Hly]]. destruct Hx as [b [Hb Hlx]].
  injection H as <-. cbn [w1 w2 w3 w4].
  exact (binary64_weights a b _ _ Ha Hb Hly Hlx).
Qed.

Lemma bilinear_weights_sum_within_rounding_witness :
  exists p,
    Binary64._get_bilinear_interp_params
      (5404319552844595 # 18014398509481984)
      (3152519739159347 # 4503599627370496) 2 2 = Some p /\
    Qabs (w1 p + w2 p + w3 p + w4 p - 1) <= Binary64.pow2 (-50) /\
    Qabs (Binary64.add (Binary64.add (Binary64.add (w1 p) (w2 p)) (w3 p))
            (w4 p) - 1) <= Binary64.pow2 (-49).
Proof.
  eexists. split; [vm_compute; reflexivity|].
  apply (bilinear_weights_sum_within_rounding
           (5404319552844595 # 18014398509481984)
           (3152519739159347 # 4503599627370496) 2 2);
    [vm_compute; discriminate | vm_compute; discriminate
     | vm_compute; reflexivity].
Defined.

(** C5, as worded: at the binary64 point (0.3, 0.7) of a 2 by 2 plane
    the four weights add up to [1 - 3 * 2^-56], and their binary64 sum is
    [1 - 2^-53]: neither is one. *)
Lemma bilinear_weights_sum_not_one :
  exists p,
    Binary64._get_bilinear_interp_params
      (5404319552844595 # 18014398509481984)
      (3152519739159347 # 4503599627370496) 2 2 = Some p /\
    ~ w1 p + w2 p + w3 p + w4 p == 1 /\
    ~ Binary64.add (Binary64.add (Binary64.add (w1 p) (w2 p)) (w3 p)) (w4 p)
      == 1.
Proof.
  eexists. split; [vm_compute; reflexivity|].
  split; intro H; vm_compute in H; discriminate H.
Qed.

(** ** Array indexing *)

Lemma norm_index_in (i n : Z) :
  (0 <= i < n)%Z -> norm_index i n = Ret i.
Proof.
  intros [H1 H2]. unfold norm_index.
  apply Z.leb_le in H1. apply Z.ltb_lt in H2. now rewrite H1, H2.
Qed.

Lemma offset4_in (a : ndarray4) (i0 i1 i2 i3 : Z) :
  (0 <= i0 < dim0 a)%Z -> (0 <= i1 < dim1 a)%Z ->
  (0 <= i2 < dim2 a)%Z -> (0 <= i3 < dim3 a)%Z ->
  offset4 a i0 i1 i2 i3 = Ret (row_major a i0 i1 i2 i3).
Proof.
  intros H0 H1 H2 H3. unfold offset4.
  rewrite (norm_index_in _ _ H0), (norm_index_in _ _ H1),
    (norm_index_in _ _ H2), (norm_index_in _ _ H3).
  reflexivity.
Qed.

Lemma row_major_bound (a : ndarray4) (i0 i1 i2 i3 : Z) :
  (0 <= i0 < dim0 a)%Z -> (0 <= i1 < dim1 a)%Z ->
  (0 <= i2 < dim2 a)%Z -> (0 <= i3 < dim3 a)%Z ->
  (0 <= row_major a i0 i1 i2 i3 < size4 a)%Z.
Proof.
  intros H0 H1 H2 H3. unfold row_major, size4.
  assert (0 <= i0 * dim1 a + i1 < dim0 a * dim1 a)%Z by nia.
  assert (0 <= (i0 * dim1 a + i1) * dim2 a + i2
          < dim0 a * dim1 a * dim2 a)%Z by nia.
  nia.
Qed.

Lemma row_major_lt_length (a : ndarray4) (i0 i1 i2 i3 : Z) :
  well_shaped a ->
  (0 <= i0 < dim0 a)%Z -> (0 <= i1 < dim1 a)%Z ->
  (0 <= i2 < dim2 a)%Z -> (0 <= i3 < dim3 a)%Z ->
  (Z.to_nat (row_major a i0 i1 i2 i3) < length (flat a))%nat.
Proof.
  intros (_ & _ & _ & _ & Hl) H0 H1 H2 H3.
  pose proof (row_major_bound a i0 i1 i2 i3 H0 H1 H2 H3). lia.
Qed.

(** A read inside the shape of a well-shaped array returns an element. *)
Lemma getitem4_in (a : ndarray4) (i0 i1 i2 i3 : Z) :
  well_shaped a ->
  (0 <= i0 < dim0 a)%Z -> (0 <= i1 < dim1 a)%Z ->
  (0 <= i2 < dim2 a)%Z -> (0 <= i3 < dim3 a)%Z ->
  exists v,
    getitem4 a i0 i1 i2 i3 = Ret v /\
    nth_error (flat a) (Z.to_nat (row_major a i0 i1 i2 i3)) = Some v.
Proof.
  intros Hw H0 H1 H2 H3. unfold getitem4.
  rewrite (offset4_in a i0 i1 i2 i3 H0 H1 H2 H3). simpl.
  pose proof (row_major_lt_length a i0 i1 i2 i3 Hw H0 H1 H2 H3) as Hlt.
  apply nth_error_Some in Hlt.
  destruct (nth_error (flat a) _) as [v|]; [|congruence].
  now exists v.
Qed.

(** The corners of a resolved sample lie inside a non-empty plane. *)
Lemma sampler_corners (y x : Q) (height width : Z) (p : bilinear_params) :
  (1 <= height)%Z -> (1 <= width)%Z ->
  _get_bilinear_interp_params y x height width = Some p ->
  (0 <= y_low p /\ y_low p <= y_high p /\ y_high p <= height - 1)%Z /\
  (0 <= x_low p /\ x_low p <= x_high p /\ x_high p <= width - 1)%Z.
Proof.
  intros Hh Hw H. apply sampler_valid_inv in H. subst p.
  pose proof (axis_bounds y height Hh) as Hy.
  pose proof (axis_bounds x width Hw) as Hx.
  destruct (resolve_axis y height) as [[ylo yhi] y'].
  destruct (resolve_axis x width) as [[xlo xhi] x'].
  simpl. tauto.
Qed.

(** C6.  On a plane with at least one row and one column every resolved
    sample has [0 <= y_low <= y_high <= height - 1] and
    [0 <= x_low <= x_high <= width - 1]; hence the guard of the backward
    kernel holds, and the four reads of the forward kernel at the resolved
    corners of plane [(b, c)] of a well-shaped feature map all return an
    element. *)
Theorem bilinear_corners_in_bounds :
  forall (y x : Q) (height width : Z) (p : bilinear_params),
    (1 <= height)%Z -> (1 <= width)%Z ->
    _get_bilinear_interp_params y x height width = Some p ->
    (0 <= y_low p /\ y_low p <= y_high p /\ y_high p <= height - 1)%Z /\
    (0 <= x_low p /\ x_low p <= x_high p /\ x_high p <= width - 1)%Z /\
    corners_nonnegative p = true /\
    forall (bottom_data : ndarray4) (b c : Z),
      well_shaped bottom_data ->
      dim2 bottom_data = height -> dim3 bottom_data = width ->
      (0 <= b < dim0 bottom_data)%Z -> (0 <= c < dim1 bottom_data)%Z ->
      exists v1 v2 v3 v4,
        getitem4 bottom_data b c (y_low p) (x_low p) = Ret v1 /\
        getitem4 bottom_data b c (y_low p) (x_high p) = Ret v2 /\
        getitem4 bottom_data b c (y_high p) (x_low p) = Ret v3 /\
        getitem4 bottom_data b c (y_high p) (x_high p) = Ret v4.
Proof.
  intros y x height width p Hh Hw H.
  destruct (sampler_corners y x height width p Hh Hw H) as [Hy Hx].
  repeat split; try tauto.
  - unfold corners_nonnegative.
    repeat (apply andb_true_iff; split); apply Z.leb_le; lia.
  - intros a b c Hws H2 H3 Hb Hc.
    destruct (getitem4_in a b c (y_low p) (x_low p)) as (v1 & E1 & _);
      try assumption; try lia.
    destruct (getitem4_in a b c (y_low p) (x_high p)) as (v2 & E2 & _);
      try assumption; try lia.
    destruct (getitem4_in a b c (y_high p) (x_low p)) as (v3 & E3 & _);
      try assumption; try lia.
    destruct (getitem4_in a b c (y_high p) (x_high p)) as (v4 & E4 & _);
      try assumption; try lia.
    exists v1, v2, v3, v4. tauto.
Qed.

Lemma bilinear_corners_in_bounds_witness :
  exists p,
    _get_bilinear_interp_params (5 # 2) (-1 # 2) 3 2 = Some p /\
    (0 <= y_low p /\ y_low p <= y_high p /\ y_high p <= 3 - 1)%Z /\
    (0 <= x_low p /\ x_low p <= x_high p /\ x_high p <= 2 - 1)%Z /\
    corners_nonnegative p = true.
Proof.
  eexists. split; [reflexivity|].
  pose proof (bilinear_corners_in_bounds (5 # 2) (-1 # 2) 3 2 _
                ltac:(lia) ltac:(lia) eq_refl) as H.
  tauto.
Defined.

(** C7.  The range test of the sampler is inclusive at both ends of the
    extended range: on a plane of size [height] by [width], a point with
    [y = height] or [y = -1] is resolved whenever [x] is within
    [-1 <= x <= width], a point with [x = width] or [x = -1] is resolved
    whenever [y] is within [-1 <= y <= height], and a point with [y < -1],
    [y > height], [x < -1] or [x > width] is not resolved. *)
Theorem bilinear_range_test_inclusive :
  forall (height width : Z),
    (0 <= height)%Z -> (0 <= width)%Z ->
    (forall x, -1 # 1 <= x <= inject_Z width ->
       _get_bilinear_interp_params (inject_Z height) x height width <> None /\
       _get_bilinear_interp_params (-1 # 1) x height width <> None) /\
    (forall y, -1 # 1 <= y <= inject_Z height ->
       _get_bilinear_interp_params y (inject_Z width) height width <> None /\
       _get_bilinear_interp_params y (-1 # 1) height width <> None) /\
    (forall y x,
       y < -1 # 1 \/ inject_Z height < y \/ x < -1 # 1 \/ inject_Z width < x ->
       _get_bilinear_interp_params y x height width = None).
Proof.
  intros height width Hh Hw.
  assert (Hh' : -1 # 1 <= inject_Z height).
  { apply Qle_trans with (inject_Z 0); [discriminate|].
    rewrite <- Zle_Qle. exact Hh. }
  assert (Hw' : -1 # 1 <= inject_Z width).
  { apply Qle_trans with (inject_Z 0); [discriminate|].
    rewrite <- Zle_Qle. exact Hw. }
  assert (R : forall a b : Q, a <= b -> ~ b < a).
  { intros a b Hab Hba. eapply Qlt_not_le; eauto. }
  split; [|split].
  - intros x [Hx1 Hx2].
    split; rewrite sampler_invalid_iff; intros [H|[H|[H|H]]];
      revert H; apply R; auto using Qle_refl.
  - intros y [Hy1 Hy2].
    split; rewrite sampler_invalid_iff; intros [H|[H|[H|H]]];
      revert H; apply R; auto using Qle_refl.
  - intros y x H. apply sampler_invalid_iff. exact H.
Qed.

Lemma bilinear_range_test_inclusive_witness :
  _get_bilinear_interp_params (inject_Z 4) (inject_Z 3) 4 3 <> None /\
  _get_bilinear_interp_params (-1 # 1) (-1 # 1) 4 3 <> None /\
  _get_bilinear_interp_params (41 # 10) 0 4 3 = None.
Proof.
  pose proof (bilinear_range_test_inclusive 4 3 ltac:(lia) ltac:(lia))
    as (Hx & Hy & Hout).
  split; [|split].
  - apply (Hx (inject_Z 3)). split; discriminate.
  - apply (Hy (-1 # 1)). split; discriminate.
  - apply Hout. right. left. reflexivity.
Defined.

(** ** Geometry *)

Lemma max_one_ge (e : Q) : 1 <= Float.max e 1.
Proof.
  unfold Float.max. destruct (Float.lt e 1) eqn:E.
  - apply Qle_refl.
  - now apply lt_false in E.
Qed.

Lemma max_one_small (e : Q) : e <= 1 -> Float.max e 1 == 1.
Proof.
  intro H. unfold Float.max. destruct (Float.lt e 1) eqn:E.
  - reflexivity.
  - apply lt_false in E. now apply Qle_antisym.
Qed.

Lemma max_one_large (e : Q) : 1 <= e -> Float.max e 1 = e.
Proof.
  intro H. unfold Float.max. destruct (Float.lt e 1) eqn:E.
  - apply lt_spec in E. exfalso. eapply Qlt_not_le; eauto.
  - reflexivity.
Qed.

(** What [roi_geometry] returns, field by field. *)
Lemma roi_geometry_inv (self : ROIAverageAlign2D) (bottom_rois : list roi)
  (bottom_roi_indices : list Z) (n : Z) (g : geometry) :
  roi_geometry self bottom_rois bottom_roi_indices n = Ret g ->
  exists b r rh rw,
    getitem1 bottom_roi_indices n = Ret b /\
    getitem1 bottom_rois n = Ret r /\
    getitem1 (sampling_ratio self) 0 = Ret rh /\
    getitem1 (sampling_ratio self) 1 = Ret rw /\
    roi_batch_ind g = b /\
    roi_start_h g = Float.mul (y_min r) (spatial_scale self) /\
    roi_start_w g = Float.mul (x_min r) (spatial_scale self) /\
    roi_height g =
      Float.max (Float.sub (Float.mul (y_max r) (spatial_scale self))
                   (Float.mul (y_min r) (spatial_scale self))) 1 /\
    roi_width g =
      Float.max (Float.sub (Float.mul (x_max r) (spatial_scale self))
                   (Float.mul (x_min r) (spatial_scale self))) 1 /\
    bin_size_h g = Float.div (roi_height g) (Float.of_int (outh self)) /\
    bin_size_w g = Float.div (roi_width g) (Float.of_int (outw self)) /\
    roi_bin_grid_h g =
      match rh with
      | None => Float.ceil (Float.div (roi_height g) (Float.of_int (outh self)))
      | Some k => k
      end /\
    roi_bin_grid_w g =
      match rw with
      | None => Float.ceil (Float.div (roi_width g) (Float.of_int (outw self)))
      | Some k => k
      end /\
    count g = (roi_bin_grid_h g * roi_bin_grid_w g)%Z.
Proof.
  unfold roi_geometry. intro H.
  destruct (getitem1 bottom_roi_indices n) as [b| |]; try discriminate.
  destruct (getitem1 bottom_rois n) as [r| |]; try discriminate.
  simpl in H.
  destruct (getitem1 (sampling_ratio self) 0) as [rh| |]; try discriminate.
  destruct (getitem1 (sampling_ratio self) 1) as [rw| |]; try discriminate.
  simpl in H. inversion H; subst; clear H.
  exists b, r, rh, rw. simpl. repeat split; reflexivity.
Qed.

(** ** The sampling grid in binary64 *)

(** What [Binary64.roi_geometry] returns, field by field. *)
Lemma binary64_roi_geometry_inv (self : ROIAverageAlign2D)
  (bottom_rois : list roi) (bottom_roi_indices : list Z) (n : Z)
  (g : Binary64.geometry) :
  Binary64.roi_geometry self bottom_rois bottom_roi_indices n = Ret g ->
  exists b r rh rw,
    getitem1 bottom_roi_indices n = Ret b /\
    getitem1 bottom_rois n = Ret r /\
    getitem1 (sampling_ratio self) 0 = Ret rh /\
    getitem1 (sampling_ratio self) 1 = Ret rw /\
    Binary64.roi_height g =
      Float.max
        (Binary64.sub (Binary64.mul (y_max r) (spatial_scale self))
           (Binary64.mul (y_min r) (spatial_scale self))) 1 /\
    Binary64.roi_width g =
      Float.max
        (Binary64.sub (Binary64.mul (x_max r) (spatial_scale self))
           (Binary64.mul (x_min r) (spatial_scale self))) 1 /\
    Binary64.roi_bin_grid_h g =
      match rh with
      | None =>
        Float.ceil
          (Binary64.div (Binary64.roi_height g)
             (Binary64.of_int (outh self)))
      | Some k => k
      end /\
    Binary64.roi_bin_grid_w g =
      match rw with
      | None =>
        Float.ceil
          (Binary64.div (Binary64.roi_width g)
             (Binary64.of_int (outw self)))
      | Some k => k
      end /\
    Binary64.count g =
      match rh, rw with
      | Some _, Some _ =>
        inject_Z (Binary64.roi_bin_grid_h g * Binary64.roi_bin_grid_w g)
      | _, _ =>
        Binary64.mul (Binary64.of_int (Binary64.roi_bin_grid_h g))
          (Binary64.of_int (Binary64.roi_bin_grid_w g))
      end.
Proof.
  unfold Binary64.roi_geometry. intro H.
  destruct (getitem1 bottom_roi_indices n) as [b| |]; try discriminate.
  destruct (getitem1 bottom_rois n) as [r| |]; try discriminate.
  simpl in H.
  destruct (getitem1 (sampling_ratio self) 0) as [rh| |]; try discriminate.
  destruct (getitem1 (sampling_ratio self) 1) as [rw| |]; try discriminate.
  simpl in H. inversion H; subst; clear H.
  exists b, r, rh, rw. simpl. repeat split; reflexivity.
Qed.

(** The binary64 quotient of a value at least one by a pooled size does
    not underflow to zero, so its ceiling is at least one. *)
Lemma binary64_ceil_div_pos (a : Q) (k : Z) :
  1 <= a -> (0 < k < 2 ^ 53)%Z ->
  (1 <= Float.ceil (Binary64.div a (Binary64.of_int k)))%Z.
Proof.
  intros Ha Hk. rewrite of_int_exact by lia.
  unfold Float.ceil, Binary64.div.
  assert (Hk0 : 0 < inject_Z k).
  { change 0 with (inject_Z 0). rewrite <- Zlt_Qlt. lia. }
  assert (Hk1 : inject_Z k <= Binary64.pow2 53).
  { rewrite (pow2_inject 53) by lia. rewrite <- Zle_Qle. lia. }
  assert (Hp : Binary64.pow2 (-53) * Binary64.pow2 53 == 1) by reflexivity.
  pose proof (pow2_pos (-53)) as P53.
  assert (Hq : Binary64.pow2 (-1074) <= a / inject_Z k).
  { apply Qle_trans with (Binary64.pow2 (-53)); [apply pow2_le; lia|].
    apply Qle_shift_div_l; [exact Hk0|].
    apply Qle_trans with (Binary64.pow2 (-53) * Binary64.pow2 53);
      [|lra].
    apply Qmult_le_l; [exact P53 | exact Hk1]. }
  pose proof (round_pos _ Hq) as Hr.
  pose proof (Qle_ceiling (Binary64.round (a / inject_Z k))) as Hc.
  assert (Hz : inject_Z 0 < inject_Z (Qceiling (Binary64.round (a / inject_Z k))))
    by (eapply Qlt_le_trans; eauto).
  rewrite <- Zlt_Qlt in Hz. lia.
Qed.

(** C8.  Whenever the geometry of ROI [n] is derived without overflow, the
    grid size on an axis is the configured sampling ratio [k] when there
    is one, whatever the ROI, and otherwise the ceiling of the binary64
    quotient of the ROI extent by the pooled extent, where the extent is
    the binary64 difference of the scaled ends, or [1] when that is
    smaller; the extent and that ceiling are at least [1].  With ratio
    [(k, k)] the count is [k * k].  The pooled sizes are below [2^53]. *)
Theorem grid_size_rule_binary64 :
  forall (self : ROIAverageAlign2D) (bottom_rois : list roi)
         (bottom_roi_indices : list Z) (n : Z) (r : roi)
         (g : Binary64.geometry),
    (0 < outh self < 2 ^ 53)%Z -> (0 < outw self < 2 ^ 53)%Z ->
    getitem1 bottom_rois n = Ret r ->
    Binary64.scaling_finite self r ->
    Binary64.roi_geometry self bottom_rois bottom_roi_indices n = Ret g ->
    exists rh rw,
      getitem1 (sampling_ratio self) 0 = Ret rh /\
      getitem1 (sampling_ratio self) 1 = Ret rw /\
      let s := spatial_scale self in
      let extent_h :=
        Binary64.sub (Binary64.mul (y_max r) s) (Binary64.mul (y_min r) s) in
      let extent_w :=
        Binary64.sub (Binary64.mul (x_max r) s) (Binary64.mul (x_min r) s) in
      (extent_h <= 1 -> Binary64.roi_height g == 1) /\
      (1 <= extent_h -> Binary64.roi_height g = extent_h) /\
      (extent_w <= 1 -> Binary64.roi_width g == 1) /\
      (1 <= extent_w -> Binary64.roi_width g = extent_w) /\
      1 <= Binary64.roi_height g /\ 1 <= Binary64.roi_width g /\
      (forall k, rh = Some k -> Binary64.roi_bin_grid_h g = k) /\
      (forall k, rw = Some k -> Binary64.roi_bin_grid_w g = k) /\
      (rh = None ->
       Binary64.roi_bin_grid_h g =
         Qceiling (Binary64.div (Binary64.roi_height g)
                     (Binary64.of_int (outh self))) /\
       (1 <= Binary64.roi_bin_grid_h g)%Z) /\
      (rw = None ->
       Binary64.roi_bin_grid_w g =
         Qceiling (Binary64.div (Binary64.roi_width g)
                     (Binary64.of_int (outw self))) /\
       (1 <= Binary64.roi_bin_grid_w g)%Z) /\
      (forall k, rh = Some k -> rw = Some k ->
                 Binary64.count g = inject_Z (k * k)).
Proof.
  intros self rois idx n r g Hh Hw Hr _ H.
  apply binary64_roi_geometry_inv in H.
  destruct H as (b & r' & rh & rw & _ & Hr' & Hrh & Hrw & Hht & Hwd
                 & Hgh & Hgw & Hc).
  rewrite Hr in Hr'. injection Hr' as <-.
  exists rh, rw. repeat (split; [assumption|]).
  cbv zeta. repeat split.
  - intro Hs. rewrite Hht. apply max_one_small. exact Hs.
  - intro Hs. rewrite Hht. apply max_one_large. exact Hs.
  - intro Hs. rewrite Hwd. apply max_one_small. exact Hs.
  - intro Hs. rewrite Hwd. apply max_one_large. exact Hs.
  - rewrite Hht. apply max_one_ge.
  - rewrite Hwd. apply max_one_ge.
  - intros k ->. exact Hgh.
  - intros k ->. exact Hgw.
  - subst rh. exact Hgh.
  - subst rh. rewrite Hgh. apply binary64_ceil_div_pos; [|exact Hh].
    rewrite Hht. apply max_one_ge.
  - subst rw. exact Hgw.
  - subst rw. rewrite Hgw. apply binary64_ceil_div_pos; [|exact Hw].
    rewrite Hwd. apply max_one_ge.
  - intros k -> ->. rewrite Hc, Hgh, Hgw. reflexivity.
Qed.

Lemma grid_size_rule_binary64_witness :
  exists g,
    Binary64.roi_geometry
      (mk_op 1 1 (3602879701896397 # 36028797018963968) [None; Some 3%Z])
      [mk_roi 0 0 20 20] [0%Z] 0 = Ret g /\
    Binary64.roi_height g == 2 /\
    Binary64.roi_bin_grid_h g = 2%Z /\ (1 <= Binary64.roi_bin_grid_h g)%Z /\
    Binary64.roi_bin_grid_w g = 3%Z.
Proof.
  eexists. split; [vm_compute; reflexivity|].
  destruct (grid_size_rule_binary64
              (mk_op 1 1 (3602879701896397 # 36028797018963968)
                 [None; Some 3%Z])
              [mk_roi 0 0 20 20] [0%Z] 0 (mk_roi 0 0 20 20) _
              ltac:(vm_compute; split; reflexivity)
              ltac:(vm_compute; split; reflexivity)
              eq_refl
              ltac:(vm_compute; repeat split)
              ltac:(vm_compute; reflexivity))
    as (rh & rw & Hrh & Hrw & _ & Hht & _ & _ & _ & _ & _ & Hgw & Hgh & _).
  injection Hrh as <-. injection Hrw as <-.
  destruct (Hgh eq_refl) as [_ Hge].
  split; [rewrite Hht; vm_compute; [reflexivity | discriminate]|].
  split; [reflexivity|]. split; [exact Hge|]. exact (Hgw 3%Z eq_refl).
Defined.

(** ** Degenerate ROIs *)




Lemma forward_for_cons (fuel : nat) (self : ROIAverageAlign2D)
  (bottom_data : ndarray4) (bottom_rois : list roi)
  (bottom_roi_indices : list Z) (i : Z) (idxs : list Z)
  (top_data : ndarray4) (n c ph pw : Z) :
  unravel i (outw self) (outh self) (dim1 bottom_data) = (n, c, ph, pw) ->
  forward_for fuel self bottom_data bottom_rois bottom_roi_indices
    (i :: idxs) top_data =
  (output_val <-
     forward_bin fuel self bottom_data bottom_rois bottom_roi_indices i ;;
   top_data <- setitem4 top_data n c ph pw output_val ;;
   forward_for fuel self bottom_data bottom_rois bottom_roi_indices idxs
     top_data).
Proof.
  intro U. cbn [forward_for]. rewrite U. reflexivity.
Qed.

Lemma forward_bin_eq (fuel : nat) (self : ROIAverageAlign2D)
  (bottom_data : ndarray4) (bottom_rois : list roi)
  (bottom_roi_indices : list Z) (i : Z) (n c ph pw : Z) :
  unravel i (outw self) (outh self) (dim1 bottom_data) = (n, c, ph, pw) ->
  forward_bin fuel self bottom_data bottom_rois bottom_roi_indices i =
  (g <- roi_geometry self bottom_rois bottom_roi_indices n ;;
   output_val <-
     forward_while_iy bottom_data (dim2 bottom_data) (dim3 bottom_data) g c
       ph pw fuel 0 0 ;;
   Ret (Float.div output_val (Float.of_int (count g)))).
Proof.
  intro U. unfold forward_bin. rewrite U. reflexivity.
Qed.




(** ** The constructor *)

(** A float scale is accepted only when it is positive. *)
Lemma init_float_scale (outsize ratio : pyval) (q : Q)
  (op : ROIAverageAlign2D) :
  __init__ outsize (PyFloat q) ratio = Ret op ->
  0 < q /\ spatial_scale op = q.
Proof.
  unfold __init__.
  destruct (_pair outsize) as [|a [|b [|? ?]]]; try discriminate.
  destruct (negb (is_positive_int a)); [discriminate|].
  destruct (negb (is_positive_int b)); [discriminate|].
  destruct (Float.lt 0 q) eqn:E; simpl; [|discriminate].
  destruct (negb (forallb is_ratio (_pair ratio))); [discriminate|].
  intro H. inversion H; subst; simpl.
  split; [now apply lt_spec|reflexivity].
Qed.

(** C2.  The constructor is run on the scales [0] and [-2] given as ints
    and on the scale [0.0] given as a float: the float is rejected with a
    type error, the two ints are converted to floats and accepted, and the
    operator is built with a scale that is not positive. *)
Theorem init_nonpositive_int_scale_accepted :
  __init__ (PyInt 1) (PyInt 0) PyNone = Ret (mk_op 1 1 0 [None; None]) /\
  __init__ (PyInt 1) (PyInt (-2)) PyNone =
    Ret (mk_op 1 1 (-2 # 1) [None; None]) /\
  __init__ (PyInt 1) (PyFloat 0) PyNone = Exn TypeError.
Proof.
  repeat split; reflexivity.
Qed.

(** ** The sampling loops on an unresolved sample *)

Section Stuck.

Variable bottom_data : ndarray4.
Variables height width : Z.
Variable g : geometry.
Variables c ph pw : Z.
Variable top_diff_this_bin : Q.

(** Once the inner loop of the forward kernel stands on an unresolved
    sample, it repeats the same test for ever. *)
Lemma forward_while_ix_stuck (fuel : nat) (y : Q) (ix : Z) (acc : Q) :
  (ix < roi_bin_grid_w g)%Z ->
  _get_bilinear_interp_params y
    (sample_coord (roi_start_w g) (bin_size_w g) pw ix (roi_bin_grid_w g))
    height width = None ->
  forward_while_ix bottom_data height width g c pw fuel y ix acc
  = OutOfFuel.
Proof.
  intros Hlt Hnone. apply Z.ltb_lt in Hlt.
  induction fuel as [|fuel IH]; cbn [forward_while_ix]; [reflexivity|].
  rewrite Hlt, Hnone. exact IH.
Qed.

Lemma forward_while_iy_stuck (fuel : nat) (iy : Z) (acc : Q) :
  (iy < roi_bin_grid_h g)%Z -> (0 < roi_bin_grid_w g)%Z ->
  resolve_sample height width g ph pw iy 0 = None ->
  forward_while_iy bottom_data height width g c ph pw fuel iy acc
  = OutOfFuel.
Proof.
  intros Hlt Hw Hnone. apply Z.ltb_lt in Hlt.
  destruct fuel as [|fuel]; cbn [forward_while_iy]; [reflexivity|].
  rewrite Hlt.
  rewrite (forward_while_ix_stuck fuel _ 0 acc Hw Hnone). reflexivity.
Qed.

Lemma backward_while_ix_stuck (fuel : nat) (y : Q) (ix : Z)
  (d : ndarray4) :
  (ix < roi_bin_grid_w g)%Z ->
  _get_bilinear_interp_params y
    (sample_coord (roi_start_w g) (bin_size_w g) pw ix (roi_bin_grid_w g))
    height width = None ->
  backward_while_ix height width g c pw top_diff_this_bin fuel y ix d
  = OutOfFuel.
Proof.
  intros Hlt Hnone. apply Z.ltb_lt in Hlt.
  induction fuel as [|fuel IH]; cbn [backward_while_ix]; [reflexivity|].
  rewrite Hlt, Hnone. exact IH.
Qed.

Lemma backward_while_iy_stuck (fuel : nat) (iy : Z) (d : ndarray4) :
  (iy < roi_bin_grid_h g)%Z -> (0 < roi_bin_grid_w g)%Z ->
  resolve_sample height width g ph pw iy 0 = None ->
  backward_while_iy height width g c ph pw top_diff_this_bin fuel iy d
  = OutOfFuel.
Proof.
  intros Hlt Hw Hnone. apply Z.ltb_lt in Hlt.
  destruct fuel as [|fuel]; cbn [backward_while_iy]; [reflexivity|].
  rewrite Hlt.
  rewrite (backward_while_ix_stuck fuel _ 0 d Hw Hnone). reflexivity.
Qed.

End Stuck.

Lemma backward_bin_eq (fuel : nat) (self : ROIAverageAlign2D)
  (bottom_rois : list roi) (bottom_roi_indices : list Z)
  (top_diff : ndarray4) (i : Z) (bottom_diff : ndarray4) (n c ph pw : Z) :
  unravel i (outw self) (outh self) (dim1 bottom_diff) = (n, c, ph, pw) ->
  backward_bin fuel self bottom_rois bottom_roi_indices top_diff i
    bottom_diff =
  (g <- roi_geometry self bottom_rois bottom_roi_indices n ;;
   top_diff_this_bin <- getitem4 top_diff n c ph pw ;;
   backward_while_iy (dim2 bottom_diff) (dim3 bottom_diff) g c ph pw
     top_diff_this_bin fuel 0 bottom_diff).
Proof.
  intro U. unfold backward_bin. rewrite U. reflexivity.
Qed.

(** C3.  A bin of the forward kernel none of whose grid samples is
    resolved does not get the value [0]: the first sample is unresolved,
    the inner loop never advances past it, and the computation of the bin
    exhausts every amount of fuel. *)
Theorem forward_all_invalid_bin_never_returns :
  forall (self : ROIAverageAlign2D) (bottom_data : ndarray4)
         (bottom_rois : list roi) (bottom_roi_indices : list Z)
         (i n c ph pw : Z) (g : geometry),
    unravel i (outw self) (outh self) (dim1 bottom_data) = (n, c, ph, pw) ->
    roi_geometry self bottom_rois bottom_roi_indices n = Ret g ->
    (1 <= roi_bin_grid_h g)%Z -> (1 <= roi_bin_grid_w g)%Z ->
    bin_all_invalid (dim2 bottom_data) (dim3 bottom_data) g ph pw ->
    forall fuel,
      forward_bin fuel self bottom_data bottom_rois bottom_roi_indices i
      = OutOfFuel.
Proof.
  intros self bottom_data rois idx i n c ph pw g U G Hh Hw Hinv fuel.
  rewrite (forward_bin_eq _ _ _ _ _ _ _ _ _ _ U), G. cbn [bind].
  rewrite forward_while_iy_stuck; [reflexivity|lia|lia|].
  apply Hinv; lia.
Qed.

Lemma forward_all_invalid_bin_never_returns_witness :
  bin_all_invalid 1 1 (mk_geometry 0 5 5 1 1 1 1 1 1 1) 0 0 /\
  forward_bin 1000 (mk_op 1 1 1 [Some 1%Z; Some 1%Z])
    (mk_array 1 1 1 1 [1]) [mk_roi 5 5 6 6] [0%Z] 0 = OutOfFuel.
Proof.
  assert (H : bin_all_invalid 1 1 (mk_geometry 0 5 5 1 1 1 1 1 1 1) 0 0).
  { intros iy ix Hy Hx. simpl in Hy, Hx.
    assert (iy = 0%Z) by lia. assert (ix = 0%Z) by lia. subst.
    reflexivity. }
  split; [exact H|].
  apply (forward_all_invalid_bin_never_returns
           (mk_op 1 1 1 [Some 1%Z; Some 1%Z]) (mk_array 1 1 1 1 [1])
           [mk_roi 5 5 6 6] [0%Z] 0 0 0 0 0
           (mk_geometry 0 5 5 1 1 1 1 1 1 1)).
  - reflexivity.
  - reflexivity.
  - simpl. lia.
  - simpl. lia.
  - exact H.
Defined.

(** C1.  The kernels are run on a one-pixel feature map with the single
    ROI [(5, 5, 6, 6)] of batch element [0], scale [1], output size
    [1 x 1] and sampling ratio [1]: the only sample, at [(5.5, 5.5)], is
    not resolved, and neither the forward nor the backward call returns,
    whatever the amount of fuel. *)
Theorem kernels_diverge_on_unresolved_sample :
  forall fuel,
    forward_cpu fuel (mk_op 1 1 1 [Some 1%Z; Some 1%Z])
      (mk_array 1 1 1 1 [1]) [mk_roi 5 5 6 6] [0%Z] = OutOfFuel /\
    backward_cpu fuel (mk_op 1 1 1 [Some 1%Z; Some 1%Z])
      (1, 1, 1, 1)%Z [mk_roi 5 5 6 6] [0%Z] (mk_array 1 1 1 1 [1])
    = OutOfFuel.
Proof.
  intro fuel.
  set (op := mk_op 1 1 1 [Some 1%Z; Some 1%Z]).
  set (fm := mk_array 1 1 1 1 [1]).
  set (g := mk_geometry 0 5 5 1 1 1 1 1 1 1).
  assert (G : roi_geometry op [mk_roi 5 5 6 6] [0%Z] 0 = Ret g)
    by reflexivity.
  assert (S : resolve_sample 1 1 g 0 0 0 0 = None) by reflexivity.
  split.
  - assert (U : unravel 0 (outw op) (outh op) (dim1 fm) = (0, 0, 0, 0)%Z)
      by reflexivity.
    unfold forward_cpu.
    change (range _) with [0%Z].
    rewrite (forward_for_cons fuel op fm _ _ 0 [] _ 0 0 0 0 U).
    rewrite (forward_bin_eq fuel op fm _ _ 0 0 0 0 0 U), G. cbn [bind].
    change (dim2 fm) with 1%Z. change (dim3 fm) with 1%Z.
    rewrite forward_while_iy_stuck; [reflexivity|reflexivity|reflexivity|].
    exact S.
  - assert (U : unravel 0 (outw op) (outh op) (dim1 (zeros 1 1 1 1))
                = (0, 0, 0, 0)%Z) by reflexivity.
    unfold backward_cpu.
    change (range _) with [0%Z].
    cbn [backward_for].
    rewrite (backward_bin_eq fuel op _ _ fm 0 (zeros 1 1 1 1) 0 0 0 0 U), G.
    cbn [bind].
    change (getitem4 fm 0 0 0 0) with (Ret (A := Q) 1). cbn [bind].
    change (dim2 (zeros 1 1 1 1)) with 1%Z.
    change (dim3 (zeros 1 1 1 1)) with 1%Z.
    rewrite backward_while_iy_stuck; [reflexivity|reflexivity|reflexivity|].
    exact S.
Qed.

(** ** In-place accumulation *)

Lemma update_nth_length (l : list Q) (k : nat) (f : Q -> Q) :
  length (update_nth l k f) = length l.
Proof.
  revert k. induction l as [|v l IH]; intros [|k]; simpl; auto.
Qed.

Lemma update_nth_other (l : list Q) (k k' : nat) (f : Q -> Q) :
  k <> k' -> nth_error (update_nth l k f) k' = nth_error l k'.
Proof.
  revert k k'.
  induction l as [|v l IH]; intros [|k] [|k'] H; simpl; auto;
    try congruence.
Qed.

(** ** What the constructor guarantees *)

Lemma init_valid_config (outsize scale ratio : pyval)
  (self : ROIAverageAlign2D) :
  __init__ outsize scale ratio = Ret self -> valid_config self.
Proof.
  unfold __init__.
  destruct (_pair outsize) as [|a [|b [|? ?]]]; try discriminate.
  destruct (is_positive_int a) eqn:Ea; [|discriminate].
  destruct (is_positive_int b) eqn:Eb; [|discriminate].
  cbn [negb].
  destruct (match scale with
            | PyInt z => Ret (Float.of_int z)
            | PyFloat q => if Float.lt 0 q then Ret q else Exn TypeError
            | _ => Exn TypeError
            end) as [s| |]; try discriminate.
  cbn [bind].
  destruct (forallb is_ratio (_pair ratio)) eqn:Er; [|discriminate].
  cbn [negb]. intro H. inversion H; subst; clear H.
  unfold valid_config. cbn [outh outw sampling_ratio].
  split; [|split].
  - destruct a; try discriminate. now apply Z.ltb_lt in Ea.
  - destruct b; try discriminate. now apply Z.ltb_lt in Eb.
  - rewrite forallb_forall in Er. apply Forall_forall.
    intros s' Hin. apply in_map_iff in Hin.
    destruct Hin as (v & <- & Hv). specialize (Er v Hv).
    destruct v; simpl in *; try exact I. now apply Z.leb_le in Er.
Qed.

Lemma norm_index_inv (i n j : Z) :
  norm_index i n = Ret j ->
  (0 <= j < n)%Z /\ ((0 <= i)%Z -> j = i).
Proof.
  unfold norm_index.
  destruct ((0 <=? i)%Z && (i <? n)%Z) eqn:E1.
  - intro H. inversion H; subst.
    apply andb_true_iff in E1. destruct E1 as [A B].
    apply Z.leb_le in A. apply Z.ltb_lt in B. split; [lia|auto].
  - destruct ((- n <=? i)%Z && (i <? 0)%Z) eqn:E2; [|discriminate].
    intro H. inversion H; subst.
    apply andb_true_iff in E2. destruct E2 as [A B].
    apply Z.leb_le in A. apply Z.ltb_lt in B. split; lia.
Qed.

Lemma getitem1_In {A : Type} (l : list A) (n : Z) (v : A) :
  getitem1 l n = Ret v -> In v l.
Proof.
  unfold getitem1.
  destruct (norm_index n (Z.of_nat (length l))) as [j| |]; try discriminate.
  cbn [bind].
  destruct (nth_error l (Z.to_nat j)) as [w|] eqn:E; [|discriminate].
  intro H. inversion H; subst. eapply nth_error_In; eauto.
Qed.

(** ** Zero-filled arrays *)

Lemma well_shaped_zeros (d0 d1 d2 d3 : Z) :
  (0 <= d0)%Z -> (0 <= d1)%Z -> (0 <= d2)%Z -> (0 <= d3)%Z ->
  well_shaped (zeros d0 d1 d2 d3).
Proof.
  intros. unfold well_shaped, zeros, size4. simpl.
  rewrite repeat_length. repeat split; try assumption.
  rewrite Z2Nat.id; [reflexivity|]. 
  repeat apply Z.mul_nonneg_nonneg; assumption.
Qed.

(** ** Planes of batch elements without ROI *)

Lemma offset4_inv (a : ndarray4) (i0 i1 i2 i3 o : Z) :
  offset4 a i0 i1 i2 i3 = Ret o ->
  exists j0 j1 j2 j3,
    o = row_major a j0 j1 j2 j3 /\
    (0 <= j0 < dim0 a)%Z /\ (0 <= j1 < dim1 a)%Z /\
    (0 <= j2 < dim2 a)%Z /\ (0 <= j3 < dim3 a)%Z /\
    ((0 <= i0)%Z -> j0 = i0).
Proof.
  unfold offset4. 
  destruct (norm_index i0 (dim0 a)) as [j0| |] eqn:E0; try discriminate.
  destruct (norm_index i1 (dim1 a)) as [j1| |] eqn:E1; try discriminate.
  destruct (norm_index i2 (dim2 a)) as [j2| |] eqn:E2; try discriminate.
  destruct (norm_index i3 (dim3 a)) as [j3| |] eqn:E3; try discriminate.
  cbn [bind]. intro H. inversion H; subst; clear H.
  apply norm_index_inv in E0, E1, E2, E3.
  exists j0, j1, j2, j3. unfold row_major. intuition.
Qed.

(** Elements of different batch planes lie at different positions. *)
Lemma row_major_planes (a : ndarray4) (j0 j1 j2 j3 k0 k1 k2 k3 : Z) :
  (0 <= j1 < dim1 a)%Z -> (0 <= j2 < dim2 a)%Z -> (0 <= j3 < dim3 a)%Z ->
  (0 <= k1 < dim1 a)%Z -> (0 <= k2 < dim2 a)%Z -> (0 <= k3 < dim3 a)%Z ->
  (j0 < k0)%Z ->
  (row_major a j0 j1 j2 j3 < row_major a k0 k1 k2 k3)%Z.
Proof.
  intros J1 J2 J3 K1 K2 K3 H. unfold row_major.
  assert (A : (j0 * dim1 a + j1 + 1 <= k0 * dim1 a + k1)%Z) by nia.
  assert (B : ((j0 * dim1 a + j1) * dim2 a + j2 + 1
               <= (k0 * dim1 a + k1) * dim2 a + k2)%Z) by nia.
  nia.
Qed.

Lemma row_major_plane_ne (a : ndarray4) (j0 j1 j2 j3 k0 k1 k2 k3 : Z) :
  (0 <= j1 < dim1 a)%Z -> (0 <= j2 < dim2 a)%Z -> (0 <= j3 < dim3 a)%Z ->
  (0 <= k1 < dim1 a)%Z -> (0 <= k2 < dim2 a)%Z -> (0 <= k3 < dim3 a)%Z ->
  j0 <> k0 ->
  row_major a j0 j1 j2 j3 <> row_major a k0 k1 k2 k3.
Proof.
  intros J1 J2 J3 K1 K2 K3 H.
  destruct (Z.lt_total j0 k0) as [L|[L|L]]; [|contradiction|].
  - pose proof (row_major_planes a j0 j1 j2 j3 k0 k1 k2 k3
                  J1 J2 J3 K1 K2 K3 L). lia.
  - pose proof (row_major_planes a k0 k1 k2 k3 j0 j1 j2 j3
                  K1 K2 K3 J1 J2 J3 L). lia.
Qed.

(** An accumulation into batch element [i0] leaves every other batch
    plane as it was. *)
Lemma iadd4_plane (a a' : ndarray4) (i0 i1 i2 i3 : Z) (v : Q) (b : Z) :
  iadd4 a i0 i1 i2 i3 v = Ret a' ->
  (0 <= i0)%Z -> (0 <= b)%Z -> i0 <> b ->
  plane_zero a b ->
  same_shape a a' /\ plane_zero a' b.
Proof.
  unfold iadd4. intros H Hi0 Hb Hne Hz.
  destruct (offset4 a i0 i1 i2 i3) as [o| |] eqn:Eo; try discriminate.
  cbn [bind] in H.
  destruct (Z.to_nat o <? length (flat a))%nat; [|discriminate].
  inversion H; subst; clear H.
  split; [unfold same_shape; simpl; tauto|].
  intros c y x Hc Hy Hx. simpl in Hc, Hy, Hx.
  specialize (Hz c y x Hc Hy Hx).
  unfold getitem4 in *.
  change (offset4 (with_flat a _) b c y x) with (offset4 a b c y x).
  destruct (offset4 a b c y x) as [o'| |] eqn:Eo'; try discriminate.
  cbn [bind] in *. cbn [with_flat flat].
  rewrite update_nth_other; [exact Hz|].
  apply offset4_inv in Eo, Eo'.
  destruct Eo as (j0 & j1 & j2 & j3 & -> & J0 & J1 & J2 & J3 & Ej).
  destruct Eo' as (k0 & k1 & k2 & k3 & -> & K0 & K1 & K2 & K3 & Ek).
  specialize (Ej Hi0). specialize (Ek Hb). subst j0 k0.
  pose proof (row_major_plane_ne a i0 j1 j2 j3 b k1 k2 k3
                J1 J2 J3 K1 K2 K3 Hne) as Hrm.
  pose proof (row_major_bound a i0 j1 j2 j3 J0 J1 J2 J3).
  pose proof (row_major_bound a b k1 k2 k3 K0 K1 K2 K3).
  lia.
Qed.

Section Frame.

Variables height width : Z.
Variable g : geometry.
Variables c ph pw : Z.
Variable top_diff_this_bin : Q.
Variable d0 : ndarray4.
Variable b : Z.

Hypothesis ind_nonneg : (0 <= roi_batch_ind g)%Z.
Hypothesis b_nonneg : (0 <= b)%Z.
Hypothesis ind_other : roi_batch_ind g <> b.

Lemma untouched_iadd4 (d d' : ndarray4) (i1 i2 i3 : Z) (v : Q) :
  iadd4 d (roi_batch_ind g) i1 i2 i3 v = Ret d' ->
  untouched d0 b d -> untouched d0 b d'.
Proof.
  intros E [Hs Hz].
  destruct (iadd4_plane d d' _ i1 i2 i3 v b E ind_nonneg b_nonneg
              ind_other Hz) as [Hs' Hz'].
  split; [|exact Hz'].
  unfold same_shape in *. intuition congruence.
Qed.

Lemma untouched_scatter (d d' : ndarray4) (p : bilinear_params) :
  scatter g c top_diff_this_bin d p = Ret d' ->
  untouched d0 b d -> untouched d0 b d'.
Proof.
  unfold scatter. intros E Hu.
  destruct (corners_nonnegative p); [|now inversion E; subst].
  destruct (iadd4 d _ _ _ _ _) as [d1| |] eqn:E1; try discriminate.
  cbn [bind] in E.
  destruct (iadd4 d1 _ _ _ _ _) as [d2| |] eqn:E2; try discriminate.
  cbn [bind] in E.
  destruct (iadd4 d2 _ _ _ _ _) as [d3| |] eqn:E3; try discriminate.
  cbn [bind] in E.
  eauto using untouched_iadd4.
Qed.

Lemma untouched_while_ix (fuel : nat) (y : Q) :
  forall (ix : Z) (d d' : ndarray4),
    backward_while_ix height width g c pw top_diff_this_bin fuel y ix d
    = Ret d' ->
    untouched d0 b d -> untouched d0 b d'.
Proof.
  induction fuel as [|fuel IH]; intros ix d d'; cbn [backward_while_ix];
    [discriminate|].
  destruct (ix <? roi_bin_grid_w g)%Z; [|now intro E; inversion E; subst].
  destruct (_get_bilinear_interp_params y _ height width) as [p|].
  - destruct (scatter g c top_diff_this_bin d p) as [d1| |] eqn:E1;
      try discriminate.
    cbn [bind]. intros E Hu.
    eapply IH; [exact E|]. eapply untouched_scatter; eauto.
  - apply IH.
Qed.

Lemma untouched_while_iy (fuel : nat) :
  forall (iy : Z) (d d' : ndarray4),
    backward_while_iy height width g c ph pw top_diff_this_bin fuel iy d
    = Ret d' ->
    untouched d0 b d -> untouched d0 b d'.
Proof.
  induction fuel as [|fuel IH]; intros iy d d'; cbn [backward_while_iy];
    [discriminate|].
  destruct (iy <? roi_bin_grid_h g)%Z; [|now intro E; inversion E; subst].
  destruct (backward_while_ix _ _ _ _ _ _ _ _ _ _) as [d1| |] eqn:E1;
    try discriminate.
  cbn [bind]. intros E Hu.
  eapply IH; [exact E|]. eapply untouched_while_ix; eauto.
Qed.

End Frame.

Lemma plane_zero_zeros (d0 d1 d2 d3 b : Z) :
  (0 <= b < d0)%Z -> (0 <= d1)%Z -> (0 <= d2)%Z -> (0 <= d3)%Z ->
  plane_zero (zeros d0 d1 d2 d3) b.
Proof.
  intros Hb H1 H2 H3 c y x Hc Hy Hx.
  destruct (getitem4_in (zeros d0 d1 d2 d3) b c y x) as (v & E & Hv);
    try assumption.
  - apply well_shaped_zeros; lia.
  - rewrite E. f_equal.
    unfold zeros in Hv. cbn [flat] in Hv.
    apply nth_error_In, repeat_spec in Hv. exact Hv.
Qed.

Lemma untouched_backward_for (fuel : nat) (self : ROIAverageAlign2D)
  (bottom_rois : list roi) (bottom_roi_indices : list Z)
  (top_diff d0 : ndarray4) (b : Z) :
  Forall (fun k => 0 <= k)%Z bottom_roi_indices ->
  (0 <= b)%Z -> ~ In b bottom_roi_indices ->
  forall (idxs : list Z) (d d' : ndarray4),
    backward_for fuel self bottom_rois bottom_roi_indices top_diff idxs d
    = Ret d' ->
    untouched d0 b d -> untouched d0 b d'.
Proof.
  intros Hidx Hb Hnotin.
  induction idxs as [|i idxs IH]; intros d d'; cbn [backward_for].
  - intro E. now inversion E; subst.
  - destruct (backward_bin fuel self bottom_rois bottom_roi_indices top_diff
                i d) as [d1| |] eqn:E1; try discriminate.
    cbn [bind]. intros E Hu. eapply IH; [exact E|].
    clear E IH.
    destruct (unravel i (outw self) (outh self) (dim1 d))
      as [[[n c] ph] pw] eqn:U.
    rewrite (backward_bin_eq _ _ _ _ _ _ _ _ _ _ _ U) in E1.
    destruct (roi_geometry self bottom_rois bottom_roi_indices n)
      as [g| |] eqn:G; try discriminate.
    cbn [bind] in E1.
    destruct (getitem4 top_diff n c ph pw) as [v| |]; try discriminate.
    cbn [bind] in E1.
    apply roi_geometry_inv in G.
    destruct G as (b' & _ & _ & _ & Eb & _ & _ & _ & Hg & _).
    apply getitem1_In in Eb. subst b'.
    rewrite Forall_forall in Hidx.
    eapply untouched_while_iy; [| | |exact E1|exact Hu].
    + now apply Hidx.
    + exact Hb.
    + intro Heq. apply Hnotin. now rewrite <- Heq.
Qed.

(** C10.  When every ROI batch index lies in [0, batch) and the backward
    kernel returns, each batch plane of the returned gradient whose index
    is that of no ROI has the shape [channels x height x width] and holds
    only zeros. *)
Theorem backward_untouched_planes_zero :
  forall (fuel : nat) (self : ROIAverageAlign2D)
         (batch channels height width : Z) (bottom_rois : list roi)
         (bottom_roi_indices : list Z) (top_diff bottom_diff : ndarray4)
         (b : Z),
    (0 <= channels)%Z -> (0 <= height)%Z -> (0 <= width)%Z ->
    Forall (fun k => 0 <= k < batch)%Z bottom_roi_indices ->
    backward_cpu fuel self (batch, channels, height, width) bottom_rois
      bottom_roi_indices top_diff = Ret bottom_diff ->
    (0 <= b < batch)%Z -> ~ In b bottom_roi_indices ->
    forall c y x,
      (0 <= c < channels)%Z -> (0 <= y < height)%Z -> (0 <= x < width)%Z ->
      getitem4 bottom_diff b c y x = Ret 0.
Proof.
  intros fuel self batch channels height width rois idx top_diff
    bottom_diff b Hc Hh Hw Hidx E Hb Hnotin.
  unfold backward_cpu in E.
  assert (Hu : untouched (zeros batch channels height width) b
                 (zeros batch channels height width)).
  { split; [unfold same_shape; tauto|].
    apply plane_zero_zeros; assumption. }
  assert (Hidx' : Forall (fun k => 0 <= k)%Z idx).
  { eapply Forall_impl; [|exact Hidx]. simpl. intros; lia. }
  destruct (untouched_backward_for fuel self rois idx top_diff _ b
              Hidx' ltac:(lia) Hnotin _ _ _ E Hu) as [(_ & S1 & S2 & S3) Hz].
  simpl in S1, S2, S3.
  intros c y x Hc' Hy Hx. apply Hz; lia.
Qed.

Lemma backward_untouched_planes_zero_witness :
  backward_cpu 5 (mk_op 1 1 1 [Some 2%Z; Some 2%Z]) (2, 1, 2, 2)%Z
    [mk_roi 0 0 2 2] [1%Z] (mk_array 1 1 1 1 [3]) =
  Ret (mk_array 2 1 2 2 [0; 0; 0; 0; 3 # 16; 9 # 16; 9 # 16; 27 # 16]) /\
  getitem4 (mk_array 2 1 2 2 [0; 0; 0; 0; 3 # 16; 9 # 16; 9 # 16; 27 # 16])
    0 0 1 1 = Ret 0.
Proof.
  assert (E : backward_cpu 5 (mk_op 1 1 1 [Some 2%Z; Some 2%Z])
                (2, 1, 2, 2)%Z [mk_roi 0 0 2 2] [1%Z]
                (mk_array 1 1 1 1 [3]) =
              Ret (mk_array 2 1 2 2
                     [0; 0; 0; 0; 3 # 16; 9 # 16; 9 # 16; 27 # 16]))
    by (vm_compute; reflexivity).
  split; [exact E|].
  apply (backward_untouched_planes_zero 5
           (mk_op 1 1 1 [Some 2%Z; Some 2%Z]) 2 1 2 2
           [mk_roi 0 0 2 2] [1%Z] (mk_array 1 1 1 1 [3]) _ 0%Z
           ltac:(lia) ltac:(lia) ltac:(lia)).
  - constructor; [lia|constructor].
  - exact E.
  - lia.
  - simpl. intros [H|H]; [discriminate|exact H].
  - lia.
  - lia.
  - lia.
Defined.

(** * Further properties of the code *)

(** ** The sampler at the borders and on the pixel grid *)

(** The sampler as its range test followed by the two axes. *)
Lemma sampler_eq (y x : Q) (height width : Z) :
  _get_bilinear_interp_params y x height width =
  if Float.lt y (-1 # 1) || Float.lt (Float.of_int height) y
     || Float.lt x (-1 # 1) || Float.lt (Float.of_int width) x
  then None
  else Some (params_of_axes (resolve_axis y height) (resolve_axis x width)).
Proof.
  unfold _get_bilinear_interp_params, params_of_axes, resolve_axis.
  destruct (Float.lt y (-1 # 1) || Float.lt (Float.of_int height) y
            || Float.lt x (-1 # 1) || Float.lt (Float.of_int width) x);
    [reflexivity|].
  cbv zeta.
  destruct (height - 1 <=? _)%Z; destruct (width - 1 <=? _)%Z; reflexivity.
Qed.

(** The fractional offset of a resolved axis lies in [0, 1). *)
Lemma axis_fraction (y : Q) (height : Z) :
  let '(lo, _, y') := resolve_axis y height in
  0 <= Float.sub y' (Float.of_int lo) /\ Float.sub y' (Float.of_int lo) < 1.
Proof.
  unfold resolve_axis.
  set (y0 := if Float.le y 0 then 0%Q else y).
  assert (H0 : 0 <= y0).
  { unfold y0. destruct (Float.le y 0) eqn:E.
    - apply Qle_refl.
    - apply le_false in E. now apply Qlt_le_weak. }
  rewrite (trunc_nonneg _ H0).
  destruct (height - 1 <=? Qfloor y0)%Z.
  - rewrite sub_spec. unfold Float.of_int. split; lra.
  - rewrite sub_spec. unfold Float.of_int.
    pose proof (Qfloor_le y0) as Hl. pose proof (Qlt_floor y0) as Hu.
    rewrite inject_Z_plus in Hu. change (inject_Z 1) with 1 in Hu.
    split; lra.
Qed.

Lemma mul_unit_interval (a b : Q) :
  0 <= a <= 1 -> 0 <= b <= 1 -> 0 <= Float.mul a b <= 1.
Proof.
  intros [Ha1 Ha2] [Hb1 Hb2]. rewrite mul_spec. split.
  - now apply Qmult_le_0_compat.
  - apply Qle_trans with (1 * b); [|lra].
    apply Qmult_le_compat_r; assumption.
Qed.

(** X1.  The four weights of a resolved sample are all between 0 and 1:
    with C5, the interpolated value is a convex combination of the four
    corner values. *)
Theorem bilinear_weights_in_unit_interval :
  forall (y x : Q) (height width : Z) (p : bilinear_params),
    _get_bilinear_interp_params y x height width = Some p ->
    (0 <= w1 p <= 1) /\ (0 <= w2 p <= 1) /\
    (0 <= w3 p <= 1) /\ (0 <= w4 p <= 1).
Proof.
  intros y x height width p H.
  apply sampler_valid_inv in H. subst p.
  pose proof (axis_fraction y height) as Hy.
  pose proof (axis_fraction x width) as Hx.
  destruct (resolve_axis y height) as [[ylo yhi] y'].
  destruct (resolve_axis x width) as [[xlo xhi] x'].
  cbn [params_of_axes w1 w2 w3 w4].
  set (ly := Float.sub y' (Float.of_int ylo)) in *.
  set (lx := Float.sub x' (Float.of_int xlo)) in *.
  assert (Hhy : 0 <= Float.sub 1 ly <= 1) by (rewrite sub_spec; split; lra).
  assert (Hhx : 0 <= Float.sub 1 lx <= 1) by (rewrite sub_spec; split; lra).
  assert (Hly : 0 <= ly <= 1) by (split; lra).
  assert (Hlx : 0 <= lx <= 1) by (split; lra).
  repeat split; apply mul_unit_interval; assumption.
Qed.

Lemma bilinear_weights_in_unit_interval_witness :
  exists p,
    _get_bilinear_interp_params (7 # 4) (1 # 3) 3 3 = Some p /\
    (0 <= w1 p <= 1) /\ (0 <= w2 p <= 1) /\
    (0 <= w3 p <= 1) /\ (0 <= w4 p <= 1).
Proof.
  eexists. split; [reflexivity|].
  apply (bilinear_weights_in_unit_interval (7 # 4) (1 # 3) 3 3).
  reflexivity.
Defined.

Lemma sub_self_int (i : Z) :
  Float.sub (Float.of_int i) (Float.of_int i) = 0.
Proof.
  unfold Float.sub. transitivity (Qred 0); [|reflexivity].
  apply canonical_eq. ring.
Qed.

(** An integer coordinate inside the plane resolves to itself. *)
Lemma resolve_axis_int (i height : Z) :
  (0 <= i <= height - 1)%Z ->
  exists hi, resolve_axis (inject_Z i) height = (i, hi, Float.of_int i).
Proof.
  intro Hi. unfold resolve_axis.
  assert (E0 : (if Float.le (inject_Z i) 0 then 0 else inject_Z i)
               = inject_Z i).
  { destruct (Float.le (inject_Z i) 0) eqn:E; [|reflexivity].
    apply le_spec in E. change 0 with (inject_Z 0) in E.
    rewrite <- Zle_Qle in E. assert (i = 0%Z) by lia. now subst. }
  rewrite E0.
  assert (Hq : 0 <= inject_Z i)
    by (change 0 with (inject_Z 0); rewrite <- Zle_Qle; lia).
  rewrite (trunc_nonneg _ Hq), Qfloor_Z.
  destruct (height - 1 <=? i)%Z eqn:E.
  - apply Z.leb_le in E. assert (i = (height - 1)%Z) by lia. subst i.
    eexists. reflexivity.
  - eexists. reflexivity.
Qed.

(** X2.  At a point with integer coordinates [(i, j)] inside the plane the
    sampler resolves to that pixel alone: its top-left corner is [(i, j)],
    the first weight is one and the three others are zero. *)
Theorem bilinear_exact_on_pixels :
  forall (i j height width : Z),
    (0 <= i <= height - 1)%Z -> (0 <= j <= width - 1)%Z ->
    exists p,
      _get_bilinear_interp_params (inject_Z i) (inject_Z j) height width
      = Some p /\
      y_low p = i /\ x_low p = j /\
      w1 p = 1 /\ w2 p = 0 /\ w3 p = 0 /\ w4 p = 0.
Proof.
  intros i j height width Hi Hj.
  destruct (resolve_axis_int i height Hi) as (yhi & Ey).
  destruct (resolve_axis_int j width Hj) as (xhi & Ex).
  rewrite sampler_eq, Ey, Ex.
  assert (T : Float.lt (inject_Z i) (-1 # 1)
              || Float.lt (Float.of_int height) (inject_Z i)
              || Float.lt (inject_Z j) (-1 # 1)
              || Float.lt (Float.of_int width) (inject_Z j) = false).
  { unfold Float.of_int.
    repeat (apply orb_false_iff; split); apply lt_false.
    - apply Qle_trans with (inject_Z 0); [discriminate|].
      rewrite <- Zle_Qle. lia.
    - rewrite <- Zle_Qle. lia.
    - apply Qle_trans with (inject_Z 0); [discriminate|].
      rewrite <- Zle_Qle. lia.
    - rewrite <- Zle_Qle. lia. }
  rewrite T. eexists. split; [reflexivity|].
  cbn [params_of_axes y_low x_low w1 w2 w3 w4].
  rewrite !sub_self_int. repeat split; reflexivity.
Qed.

Lemma bilinear_exact_on_pixels_witness :
  exists p,
    _get_bilinear_interp_params (inject_Z 2) (inject_Z 1) 3 4 = Some p /\
    y_low p = 2%Z /\ x_low p = 1%Z /\
    w1 p = 1 /\ w2 p = 0 /\ w3 p = 0 /\ w4 p = 0.
Proof.
  apply (bilinear_exact_on_pixels 2 1 3 4); lia.
Defined.

(** The range test does not tell two coordinates of the extended range
    apart. *)
Lemma range_test_in (y : Q) (height : Z) :
  -1 # 1 <= y <= inject_Z height ->
  Float.lt y (-1 # 1) = false /\ Float.lt (Float.of_int height) y = false.
Proof.
  intros [H1 H2]. split; apply lt_false; assumption.
Qed.

Lemma resolve_axis_low (y : Q) (height : Z) :
  y <= 0 -> resolve_axis y height = resolve_axis 0 height.
Proof.
  intro H. unfold resolve_axis.
  apply le_spec in H. rewrite H. reflexivity.
Qed.

Lemma resolve_axis_high (y : Q) (height : Z) :
  (1 <= height)%Z -> inject_Z (height - 1) <= y ->
  resolve_axis y height = (height - 1, height - 1, Float.of_int (height - 1))%Z.
Proof.
  intros Hh Hy. unfold resolve_axis.
  set (y0 := if Float.le y 0 then 0%Q else y).
  assert (Hge : inject_Z (height - 1) <= y0).
  { unfold y0. destruct (Float.le y 0) eqn:E; [|exact Hy].
    apply le_spec in E. eapply Qle_trans; eauto. }
  assert (H0 : 0 <= y0).
  { apply Qle_trans with (inject_Z (height - 1)); [|exact Hge].
    change 0 with (inject_Z 0). rewrite <- Zle_Qle. lia. }
  rewrite (trunc_nonneg _ H0).
  assert (Hf : (height - 1 <= Qfloor y0)%Z).
  { rewrite <- (Qfloor_Z (height - 1)). now apply Qfloor_resp_le. }
  apply Z.leb_le in Hf. rewrite Hf. reflexivity.
Qed.

(** X3.  Coordinates between -1 and 0 are read as 0: on either axis, a
    point of the margin before the first row or column is resolved exactly
    as the point on that row or column. *)
Theorem bilinear_low_margin_clamped :
  forall (y x : Q) (height width : Z),
    (0 <= height)%Z -> (0 <= width)%Z ->
    (-1 # 1 <= y <= 0 ->
     _get_bilinear_interp_params y x height width =
     _get_bilinear_interp_params 0 x height width) /\
    (-1 # 1 <= x <= 0 ->
     _get_bilinear_interp_params y x height width =
     _get_bilinear_interp_params y 0 height width).
Proof.
  intros y x height width Hh Hw.
  assert (Hh' : 0 <= inject_Z height)
    by (change 0 with (inject_Z 0); now rewrite <- Zle_Qle).
  assert (Hw' : 0 <= inject_Z width)
    by (change 0 with (inject_Z 0); now rewrite <- Zle_Qle).
  split; intros [H1 H2]; rewrite !sampler_eq.
  - destruct (range_test_in y height) as [-> ->]; [split; lra|].
    destruct (range_test_in 0 height) as [-> ->]; [split; lra|].
    now rewrite (resolve_axis_low y height H2).
  - destruct (range_test_in x width) as [-> ->]; [split; lra|].
    destruct (range_test_in 0 width) as [-> ->]; [split; lra|].
    now rewrite (resolve_axis_low x width H2).
Qed.

Lemma bilinear_low_margin_clamped_witness :
  _get_bilinear_interp_params (-1 # 2) (3 # 2) 3 3 =
  _get_bilinear_interp_params 0 (3 # 2) 3 3 /\
  _get_bilinear_interp_params (3 # 2) (-1 # 1) 3 3 =
  _get_bilinear_interp_params (3 # 2) 0 3 3.
Proof.
  destruct (bilinear_low_margin_clamped (-1 # 2) (3 # 2) 3 3
              ltac:(lia) ltac:(lia)) as [Hy _].
  destruct (bilinear_low_margin_clamped (3 # 2) (-1 # 1) 3 3
              ltac:(lia) ltac:(lia)) as [_ Hx].
  split; [apply Hy|apply Hx]; split; discriminate.
Defined.

(** X4.  Coordinates from the last row to one past it are read as the last
    row: for [height - 1 <= y <= height] the point is resolved exactly as
    the point at [y = height - 1], with both corners on the last row; the
    same holds for columns. *)
Theorem bilinear_high_margin_snapped :
  forall (y x : Q) (height width : Z),
    (1 <= height)%Z -> (1 <= width)%Z ->
    (inject_Z (height - 1) <= y <= inject_Z height ->
     _get_bilinear_interp_params y x height width =
     _get_bilinear_interp_params (inject_Z (height - 1)) x height width) /\
    (inject_Z (width - 1) <= x <= inject_Z width ->
     _get_bilinear_interp_params y x height width =
     _get_bilinear_interp_params y (inject_Z (width - 1)) height width).
Proof.
  intros y x height width Hh Hw.
  assert (Lh : 0 <= inject_Z (height - 1))
    by (change 0 with (inject_Z 0); rewrite <- Zle_Qle; lia).
  assert (Lw : 0 <= inject_Z (width - 1))
    by (change 0 with (inject_Z 0); rewrite <- Zle_Qle; lia).
  assert (Uh : inject_Z (height - 1) <= inject_Z height)
    by (rewrite <- Zle_Qle; lia).
  assert (Uw : inject_Z (width - 1) <= inject_Z width)
    by (rewrite <- Zle_Qle; lia).
  split; intros [H1 H2]; rewrite !sampler_eq.
  - destruct (range_test_in y height) as [-> ->]; [split; lra|].
    destruct (range_test_in (inject_Z (height - 1)) height) as [-> ->];
      [split; lra|].
    rewrite (resolve_axis_high y height Hh H1).
    rewrite (resolve_axis_high _ height Hh (Qle_refl _)). reflexivity.
  - destruct (range_test_in x width) as [-> ->]; [split; lra|].
    destruct (range_test_in (inject_Z (width - 1)) width) as [-> ->];
      [split; lra|].
    rewrite (resolve_axis_high x width Hw H1).
    rewrite (resolve_axis_high _ width Hw (Qle_refl _)). reflexivity.
Qed.

Lemma bilinear_high_margin_snapped_witness :
  _get_bilinear_interp_params (5 # 2) (1 # 2) 3 3 =
  _get_bilinear_interp_params (inject_Z (3 - 1)) (1 # 2) 3 3 /\
  _get_bilinear_interp_params (1 # 2) (inject_Z 3) 3 3 =
  _get_bilinear_interp_params (1 # 2) (inject_Z (3 - 1)) 3 3.
Proof.
  destruct (bilinear_high_margin_snapped (5 # 2) (1 # 2) 3 3
              ltac:(lia) ltac:(lia)) as [Hy _].
  destruct (bilinear_high_margin_snapped (1 # 2) (inject_Z 3) 3 3
              ltac:(lia) ltac:(lia)) as [_ Hx].
  split; [apply Hy|apply Hx]; split; discriminate.
Defined.

(** ** More on the constructor *)

(** X5.  Every operator that the constructor returns has positive output
    sizes and sampling ratios that are each [None] or at least one; and
    when the scale was passed as a float, that float is positive and is
    the scale of the operator. *)
Theorem init_postcondition :
  forall (outsize scale ratio : pyval) (self : ROIAverageAlign2D),
    __init__ outsize scale ratio = Ret self ->
    (0 < outh self)%Z /\ (0 < outw self)%Z /\
    Forall ratio_ok (sampling_ratio self) /\
    (forall q, scale = PyFloat q -> 0 < q /\ spatial_scale self = q).
Proof.
  intros outsize scale ratio self H.
  destruct (init_valid_config outsize scale ratio self H) as (Hh & Hw & Hr).
  repeat split; try assumption; subst scale;
    now apply (init_float_scale outsize ratio q self).
Qed.

Lemma init_postcondition_witness :
  exists self,
    __init__ (PyTuple [PyInt 7; PyInt 5]) (PyFloat (1 # 16))
      (PyTuple [PyNone; PyInt 2]) = Ret self /\
    (0 < outh self)%Z /\ (0 < outw self)%Z /\
    Forall ratio_ok (sampling_ratio self) /\
    (forall q, PyFloat (1 # 16) = PyFloat q ->
               0 < q /\ spatial_scale self = q).
Proof.
  eexists. split; [reflexivity|].
  apply (init_postcondition (PyTuple [PyInt 7; PyInt 5]) (PyFloat (1 # 16))
           (PyTuple [PyNone; PyInt 2])).
  reflexivity.
Defined.

(** X6.  A single output size or sampling ratio stands for the pair of
    twice itself: for an [outsize] and a [sampling_ratio] that are not
    tuples, the constructor behaves on them as on [(outsize, outsize)] and
    [(sampling_ratio, sampling_ratio)], in its result as in its errors. *)
Theorem init_scalar_is_pair :
  forall (outsize scale ratio : pyval),
    (forall l, outsize <> PyTuple l) -> (forall l, ratio <> PyTuple l) ->
    __init__ outsize scale ratio =
    __init__ (PyTuple [outsize; outsize]) scale (PyTuple [ratio; ratio]).
Proof.
  intros outsize scale ratio Ho Hr. unfold __init__.
  assert (Eo : _pair outsize = [outsize; outsize]).
  { destruct outsize; try reflexivity. exfalso. now apply (Ho l). }
  assert (Er : _pair ratio = [ratio; ratio]).
  { destruct ratio; try reflexivity. exfalso. now apply (Hr l). }
  rewrite Eo, Er. reflexivity.
Qed.

Lemma init_scalar_is_pair_witness :
  __init__ (PyInt 7) (PyFloat (1 # 2)) (PyInt 2) =
  __init__ (PyTuple [PyInt 7; PyInt 7]) (PyFloat (1 # 2))
    (PyTuple [PyInt 2; PyInt 2]).
Proof.
  apply (init_scalar_is_pair (PyInt 7) (PyFloat (1 # 2)) (PyInt 2));
    intros l H; discriminate H.
Defined.

(** X7.  An [outsize] tuple that does not have exactly two entries makes
    the constructor fail in the unpacking [outh, outw = ...], with a
    [ValueError] and not the [TypeError] of its own checks, whatever the
    other arguments. *)
Theorem init_outsize_wrong_length :
  forall (l : list pyval) (scale ratio : pyval),
    length l <> 2%nat ->
    __init__ (PyTuple l) scale ratio = Exn ValueError.
Proof.
  intros l scale ratio H. unfold __init__. cbn [_pair].
  destruct l as [|a [|b [|c l]]]; try reflexivity.
  exfalso. apply H. reflexivity.
Qed.

Lemma init_outsize_wrong_length_witness :
  __init__ (PyTuple [PyInt 7; PyInt 7; PyInt 7]) (PyFloat 1) PyNone
  = Exn ValueError.
Proof.
  apply (init_outsize_wrong_length [PyInt 7; PyInt 7; PyInt 7]).
  simpl. lia.
Defined.

(** A lookup either returns or raises [IndexError]. *)
Lemma getitem1_cases {A : Type} (l : list A) (n : Z) :
  (exists v, getitem1 l n = Ret v) \/ getitem1 l n = Exn IndexError.
Proof.
  unfold getitem1, norm_index.
  destruct ((0 <=? n)%Z && (n <? Z.of_nat (length l))%Z); cbn [bind].
  - destruct (nth_error l (Z.to_nat n)); eauto.
  - destruct ((- Z.of_nat (length l) <=? n)%Z && (n <? 0)%Z); cbn [bind];
      [|now right].
    destruct (nth_error l _); eauto.
Qed.

Lemma getitem1_short {A : Type} (l : list A) (n : Z) :
  (Z.of_nat (length l) <= n)%Z -> getitem1 l n = Exn IndexError.
Proof.
  intro H. unfold getitem1, norm_index.
  destruct (Z.ltb_spec n (Z.of_nat (length l))); [lia|].
  rewrite andb_false_r.
  destruct (Z.ltb_spec n 0); [lia|].
  rewrite andb_false_r. reflexivity.
Qed.

Lemma roi_geometry_short_ratio (self : ROIAverageAlign2D)
  (bottom_rois : list roi) (bottom_roi_indices : list Z) (n : Z) :
  (length (sampling_ratio self) < 2)%nat ->
  roi_geometry self bottom_rois bottom_roi_indices n = Exn IndexError.
Proof.
  intro H. unfold roi_geometry.
  destruct (getitem1_cases bottom_roi_indices n) as [[b ->]| ->];
    [|reflexivity].
  cbn [bind].
  destruct (getitem1_cases bottom_rois n) as [[r ->]| ->]; [|reflexivity].
  cbn [bind].
  destruct (getitem1_cases (sampling_ratio self) 0) as [[rh ->]| ->];
    [|reflexivity].
  cbn [bind].
  rewrite (getitem1_short (sampling_ratio self) 1) by lia.
  reflexivity.
Qed.

Lemma range_pos (n : Z) :
  (0 < n)%Z -> range n = 0%Z :: map Z.of_nat (seq 1 (Z.to_nat n - 1)).
Proof.
  intro H. unfold range.
  destruct (Z.to_nat n) as [|k] eqn:E; [lia|].
  simpl. rewrite ?Nat.sub_0_r. reflexivity.
Qed.

(** X8.  The constructor accepts a [sampling_ratio] tuple with fewer than
    two entries, but the operator it returns cannot run: on any input that
    has at least one output element the forward kernel raises [IndexError]
    when it looks up the missing ratio, whatever the fuel. *)
Theorem short_sampling_ratio_raises :
  forall (outsize scale : pyval) (l : list pyval) (self : ROIAverageAlign2D)
         (fuel : nat) (bottom_data : ndarray4) (bottom_rois : list roi)
         (bottom_roi_indices : list Z),
    __init__ outsize scale (PyTuple l) = Ret self ->
    (length l < 2)%nat ->
    (0 < Z.of_nat (length bottom_rois) * dim1 bottom_data
         * outh self * outw self)%Z ->
    forward_cpu fuel self bottom_data bottom_rois bottom_roi_indices
    = Exn IndexError.
Proof.
  intros outsize scale l self fuel data rois idx Hinit Hl Hsize.
  assert (Hr : (length (sampling_ratio self) < 2)%nat).
  { revert Hinit. unfold __init__.
    destruct (_pair outsize) as [|a [|b [|? ?]]]; try discriminate.
    destruct (negb (is_positive_int a)); [discriminate|].
    destruct (negb (is_positive_int b)); [discriminate|].
    destruct (match scale with
              | PyInt z => Ret (Float.of_int z)
              | PyFloat q => if Float.lt 0 q then Ret q else Exn TypeError
              | _ => Exn TypeError
              end) as [s| |]; try discriminate.
    cbn [bind _pair].
    destruct (negb (forallb is_ratio l)); [discriminate|].
    intro H. inversion H; subst. cbn [sampling_ratio].
    now rewrite length_map. }
  unfold forward_cpu.
  change (size4 (zeros ?a ?b ?c ?d)) with (a * b * c * d)%Z.
  rewrite (range_pos _ Hsize).
  destruct (unravel 0 (outw self) (outh self) (dim1 data))
    as [[[n c] ph] pw] eqn:U.
  rewrite (forward_for_cons _ _ _ _ _ _ _ _ _ _ _ _ U).
  rewrite (forward_bin_eq _ _ _ _ _ _ _ _ _ _ U).
  rewrite (roi_geometry_short_ratio self rois idx n Hr). reflexivity.
Qed.

Lemma short_sampling_ratio_raises_witness :
  __init__ (PyInt 1) (PyFloat 1) (PyTuple [PyInt 2]) =
    Ret (mk_op 1 1 1 [Some 2%Z]) /\
  forward_cpu 9 (mk_op 1 1 1 [Some 2%Z]) (mk_array 1 1 2 2 [1; 2; 3; 4])
    [mk_roi 0 0 2 2] [0%Z] = Exn IndexError.
Proof.
  split; [reflexivity|].
  apply (short_sampling_ratio_raises (PyInt 1) (PyFloat 1) [PyInt 2]).
  - reflexivity.
  - simpl. lia.
  - simpl. lia.
Defined.

(** ** What a returning forward call has done *)

Lemma setitem4_inv (a a' : ndarray4) (i0 i1 i2 i3 : Z) (v : Q) :
  setitem4 a i0 i1 i2 i3 v = Ret a' ->
  exists o,
    offset4 a i0 i1 i2 i3 = Ret o /\
    (Z.to_nat o < length (flat a))%nat /\
    a' = with_flat a (update_nth (flat a) (Z.to_nat o) (fun _ => v)).
Proof.
  unfold setitem4. intro H.
  destruct (offset4 a i0 i1 i2 i3) as [o| |]; try discriminate.
  cbn [bind] in H.
  destruct (Nat.ltb_spec (Z.to_nat o) (length (flat a))); [|discriminate].
  inversion H; subst. now exists o.
Qed.

Lemma forward_for_shape (fuel : nat) (self : ROIAverageAlign2D)
  (bottom_data : ndarray4) (bottom_rois : list roi)
  (bottom_roi_indices : list Z) (idxs : list Z) :
  forall top_data top_data',
    forward_for fuel self bottom_data bottom_rois bottom_roi_indices idxs
      top_data = Ret top_data' ->
    same_shape top_data top_data' /\
    length (flat top_data') = length (flat top_data).
Proof.
  induction idxs as [|i idxs IH]; intros top top'.
  - intro H. inversion H; subst. unfold same_shape. tauto.
  - destruct (unravel i (outw self) (outh self) (dim1 bottom_data))
      as [[[n c] ph] pw] eqn:U.
    rewrite (forward_for_cons _ _ _ _ _ _ _ _ _ _ _ _ U).
    destruct (forward_bin _ _ _ _ _ _) as [v| |]; try discriminate.
    cbn [bind].
    destruct (setitem4 top n c ph pw v) as [t| |] eqn:E; try discriminate.
    cbn [bind]. intro H.
    destruct (IH _ _ H) as [(S0 & S1 & S2 & S3) L].
    apply setitem4_inv in E. destruct E as (o & _ & _ & ->).
    cbn [with_flat dim0 dim1 dim2 dim3 flat] in *.
    rewrite update_nth_length in L.
    unfold same_shape. tauto.
Qed.

(** X9.  When the forward kernel returns, its output has the shape
    [(n_rois, channels, outh, outw)], with one element per position. *)
Theorem forward_output_shape :
  forall (fuel : nat) (self : ROIAverageAlign2D) (bottom_data : ndarray4)
         (bottom_rois : list roi) (bottom_roi_indices : list Z)
         (top_data : ndarray4),
    forward_cpu fuel self bottom_data bottom_rois bottom_roi_indices
    = Ret top_data ->
    dim0 top_data = Z.of_nat (length bottom_rois) /\
    dim1 top_data = dim1 bottom_data /\
    dim2 top_data = outh self /\ dim3 top_data = outw self /\
    length (flat top_data) =
    Z.to_nat (Z.of_nat (length bottom_rois) * dim1 bottom_data
              * outh self * outw self).
Proof.
  intros fuel self data rois idx top H. unfold forward_cpu in H.
  apply forward_for_shape in H. destruct H as [(S0 & S1 & S2 & S3) L].
  unfold zeros in *. cbn [dim0 dim1 dim2 dim3 flat] in *.
  rewrite repeat_length in L. tauto.
Qed.

Lemma forward_output_shape_witness :
  forward_cpu 8 (mk_op 1 2 1 [Some 1%Z; Some 1%Z])
    (mk_array 1 1 2 2 [1; 2; 3; 4]) [mk_roi 0 0 2 2] [0%Z]
  = Ret (mk_array 1 1 1 2 [7 # 2; 4]) /\
  length (flat (mk_array 1 1 1 2 [7 # 2; 4])) = Z.to_nat (1 * 1 * 1 * 2).
Proof.
  assert (E : forward_cpu 8 (mk_op 1 2 1 [Some 1%Z; Some 1%Z])
                (mk_array 1 1 2 2 [1; 2; 3; 4]) [mk_roi 0 0 2 2] [0%Z]
              = Ret (mk_array 1 1 1 2 [7 # 2; 4]))
    by (vm_compute; reflexivity).
  split; [exact E|].
  apply (forward_output_shape _ _ _ _ _ _ E).
Defined.

(** ** What a returning backward call has done *)

Lemma iadd4_shape (a a' : ndarray4) (i0 i1 i2 i3 : Z) (v : Q) :
  iadd4 a i0 i1 i2 i3 v = Ret a' ->
  same_shape a a' /\ length (flat a') = length (flat a).
Proof.
  unfold iadd4. intro H.
  destruct (offset4 a i0 i1 i2 i3) as [o| |]; try discriminate.
  cbn [bind] in H.
  destruct (Z.to_nat o <? length (flat a))%nat; [|discriminate].
  inversion H; subst. cbn [with_flat flat].
  rewrite update_nth_length. unfold same_shape. simpl. tauto.
Qed.

(** Same shape and same number of elements. *)
Lemma same_layout_trans (a b c : ndarray4) :
  same_shape a b /\ length (flat b) = length (flat a) ->
  same_shape b c /\ length (flat c) = length (flat b) ->
  same_shape a c /\ length (flat c) = length (flat a).
Proof.
  unfold same_shape. intuition congruence.
Qed.

Section BackwardShape.

Variables height width : Z.
Variable g : geometry.
Variables c ph pw : Z.
Variable top_diff_this_bin : Q.

Lemma scatter_shape (d d' : ndarray4) (p : bilinear_params) :
  scatter g c top_diff_this_bin d p = Ret d' ->
  same_shape d d' /\ length (flat d') = length (flat d).
Proof.
  unfold scatter. intro E.
  destruct (corners_nonnegative p).
  - destruct (iadd4 d _ _ _ _ _) as [d1| |] eqn:E1; try discriminate.
    cbn [bind] in E.
    destruct (iadd4 d1 _ _ _ _ _) as [d2| |] eqn:E2; try discriminate.
    cbn [bind] in E.
    destruct (iadd4 d2 _ _ _ _ _) as [d3| |] eqn:E3; try discriminate.
    cbn [bind] in E.
    apply iadd4_shape in E1, E2, E3, E.
    eauto using same_layout_trans.
  - inversion E; subst. unfold same_shape. tauto.
Qed.

Lemma backward_while_ix_shape (fuel : nat) (y : Q) :
  forall (ix : Z) (d d' : ndarray4),
    backward_while_ix height width g c pw top_diff_this_bin fuel y ix d
    = Ret d' ->
    same_shape d d' /\ length (flat d') = length (flat d).
Proof.
  induction fuel as [|fuel IH]; intros ix d d'; cbn [backward_while_ix];
    [discriminate|].
  destruct (ix <? roi_bin_grid_w g)%Z.
  - destruct (_get_bilinear_interp_params y _ height width) as [p|].
    + destruct (scatter g c top_diff_this_bin d p) as [d1| |] eqn:E1;
        try discriminate.
      cbn [bind]. intro H.
      eapply same_layout_trans; [eapply scatter_shape; eauto|eauto].
    + apply IH.
  - intro H. inversion H; subst. unfold same_shape. tauto.
Qed.

Lemma backward_while_iy_shape (fuel : nat) :
  forall (iy : Z) (d d' : ndarray4),
    backward_while_iy height width g c ph pw top_diff_this_bin fuel iy d
    = Ret d' ->
    same_shape d d' /\ length (flat d') = length (flat d).
Proof.
  induction fuel as [|fuel IH]; intros iy d d'; cbn [backward_while_iy];
    [discriminate|].
  destruct (iy <? roi_bin_grid_h g)%Z.
  - destruct (backward_while_ix _ _ _ _ _ _ _ _ _ _) as [d1| |] eqn:E1;
      try discriminate.
    cbn [bind]. intro H.
    eapply same_layout_trans; [eapply backward_while_ix_shape; eauto|eauto].
  - intro H. inversion H; subst. unfold same_shape. tauto.
Qed.

End BackwardShape.

Lemma backward_for_shape (fuel : nat) (self : ROIAverageAlign2D)
  (bottom_rois : list roi) (bottom_roi_indices : list Z)
  (top_diff : ndarray4) (idxs : list Z) :
  forall d d',
    backward_for fuel self bottom_rois bottom_roi_indices top_diff idxs d
    = Ret d' ->
    same_shape d d' /\ length (flat d') = length (flat d).
Proof.
  induction idxs as [|i0 idxs IH]; intros d d'; cbn [backward_for].
  - intro H. inversion H; subst. unfold same_shape. tauto.
  - destruct (backward_bin fuel self bottom_rois bottom_roi_indices top_diff
                i0 d) as [d1| |] eqn:E1; try discriminate.
    cbn [bind]. intro H.
    destruct (unravel i0 (outw self) (outh self) (dim1 d))
      as [[[n0 c0] ph0] pw0] eqn:U0.
    rewrite (backward_bin_eq _ _ _ _ _ _ _ _ _ _ _ U0) in E1.
    destruct (roi_geometry self bottom_rois bottom_roi_indices n0)
      as [g0| |]; try discriminate.
    cbn [bind] in E1.
    destruct (getitem4 top_diff n0 c0 ph0 pw0) as [v| |]; try discriminate.
    cbn [bind] in E1.
    eapply same_layout_trans; [eapply backward_while_iy_shape; eauto|eauto].
Qed.

(** X16.  When the backward kernel returns, the gradient has the shape
    [self._bottom_data_shape], with one element per position. *)
Theorem backward_output_shape :
  forall (fuel : nat) (self : ROIAverageAlign2D)
         (batch channels height width : Z) (bottom_rois : list roi)
         (bottom_roi_indices : list Z) (top_diff bottom_diff : ndarray4),
    backward_cpu fuel self (batch, channels, height, width) bottom_rois
      bottom_roi_indices top_diff = Ret bottom_diff ->
    dim0 bottom_diff = batch /\ dim1 bottom_diff = channels /\
    dim2 bottom_diff = height /\ dim3 bottom_diff = width /\
    length (flat bottom_diff) =
    Z.to_nat (batch * channels * height * width).
Proof.
  intros fuel self batch channels height width rois idx gy gx H.
  unfold backward_cpu in H.
  destruct (backward_for_shape _ _ _ _ _ _ _ _ H) as [(S0 & S1 & S2 & S3) L].
  unfold zeros in *. cbn [dim0 dim1 dim2 dim3 flat] in *.
  rewrite repeat_length in L. tauto.
Qed.

Lemma backward_output_shape_witness :
  backward_cpu 5 (mk_op 1 1 1 [Some 2%Z; Some 2%Z])
    (2, 1, 2, 2)%Z [mk_roi 0 0 2 2] [1%Z] (mk_array 1 1 1 1 [3])
  = Ret (mk_array 2 1 2 2 [0; 0; 0; 0; 3 # 16; 9 # 16; 9 # 16; 27 # 16]) /\
  length (flat (mk_array 2 1 2 2
                  [0; 0; 0; 0; 3 # 16; 9 # 16; 9 # 16; 27 # 16])) =
  Z.to_nat (2 * 1 * 2 * 2).
Proof.
  assert (E : backward_cpu 5 (mk_op 1 1 1 [Some 2%Z; Some 2%Z])
                (2, 1, 2, 2)%Z [mk_roi 0 0 2 2] [1%Z]
                (mk_array 1 1 1 1 [3]) =
              Ret (mk_array 2 1 2 2
                     [0; 0; 0; 0; 3 # 16; 9 # 16; 9 # 16; 27 # 16]))
    by (vm_compute; reflexivity).
  split; [exact E|].
  apply (backward_output_shape _ _ _ _ _ _ _ _ _ _ E).
Defined.

(** ** Calls without ROIs or without batch indices *)

(** X17.  Without ROIs the forward kernel has no output element to
    compute: it returns the empty array of shape
    [(0, channels, outh, outw)] at once, whatever the fuel. *)
Theorem forward_cpu_no_rois :
  forall (fuel : nat) (self : ROIAverageAlign2D) (bottom_data : ndarray4)
         (bottom_roi_indices : list Z),
    forward_cpu fuel self bottom_data [] bottom_roi_indices
    = Ret (mk_array 0 (dim1 bottom_data) (outh self) (outw self) []).
Proof.
  intros fuel self data idx. reflexivity.
Qed.

(** X18.  An incoming gradient without elements leaves the gradient of
    the feature map at its initial value: the backward kernel returns the
    zero array of shape [self._bottom_data_shape] at once. *)
Theorem backward_cpu_no_gradient :
  forall (fuel : nat) (self : ROIAverageAlign2D)
         (batch channels height width : Z) (bottom_rois : list roi)
         (bottom_roi_indices : list Z) (top_diff : ndarray4),
    size4 top_diff = 0%Z ->
    backward_cpu fuel self (batch, channels, height, width) bottom_rois
      bottom_roi_indices top_diff
    = Ret (zeros batch channels height width).
Proof.
  intros fuel self batch channels height width rois idx gy H.
  unfold backward_cpu. rewrite H. reflexivity.
Qed.

Lemma backward_cpu_no_gradient_witness :
  backward_cpu 0 (mk_op 2 2 1 [None; None]) (1, 1, 2, 2)%Z [] []
    (mk_array 0 1 2 2 [])
  = Ret (mk_array 1 1 2 2 [0; 0; 0; 0]).
Proof.
  apply (backward_cpu_no_gradient 0 (mk_op 2 2 1 [None; None])
           1 1 2 2 [] [] (mk_array 0 1 2 2 [])).
  reflexivity.
Defined.



